(** * Food Shop API: the product endpoints of [main.py]

    A shallow embedding of the request handlers of [main.py] over a model
    of the document store they talk to, and the properties of the
    handlers stated in the specification.

    Conventions.
    - A text is a [string] that holds the UTF-8 bytes of a Python [str]:
      an ASCII character is one byte, any other character a lead byte
      and one to three continuation bytes.  The byte-wise order on such
      strings is the order of Python on [str]; a slice [s[:n]] is taken
      character by character ([take_chars]).
    - A document is a finite map from field names to values, as a Python
      [dict] with [str] keys read through [in], [pop], and item
      assignment; the order of keys is not observed by the handlers.
    - A handler is a function of the process-wide handle [db] and the
      state of the store behind it; it returns an [outcome] and the
      state the store is left in.
    - What the handlers leave to the store and to the framework is
      described as far as it is certain; the rest is a component of the
      store (its regular-expression engine, the commands that will
      fail) or is marked as not described. *)

From Stdlib Require Import Ascii String ZArith NArith Lia.
From stdpp Require Import gmap strings list fin_maps pretty sorting.

#[local] Set Warnings "-clear-no-such-hyp".


(** ** Values held by the fields of a document *)

(** The kinds of value a stored document holds: [None], [bool], [int],
    [float], [str], the store's [ObjectId] and [datetime].  A float is
    carried by its [repr], the shortest decimal text that reads back as
    the same float ([9.99] is [VFloat "9.99"]); an [ObjectId] by the
    number its twelve bytes spell; a [datetime] by the text [str] gives
    for it. *)
Inductive value : Type :=
| VNone
| VBool (b : bool)
| VInt (n : Z)
| VFloat (repr : string)
| VStr (s : string)
| VOid (oid : N)
| VDate (text : string).

#[global] Instance value_eq_dec : EqDecision value.
Proof. solve_decision. Defined.

Definition hex_digit (n : N) : ascii :=
  match n with
  | 0 => "0" | 1 => "1" | 2 => "2" | 3 => "3" | 4 => "4" | 5 => "5"
  | 6 => "6" | 7 => "7" | 8 => "8" | 9 => "9" | 10 => "a" | 11 => "b"
  | 12 => "c" | 13 => "d" | 14 => "e" | _ => "f"
  end%N%char.

(** The last [k] hexadecimal digits of [n], most significant first. *)
Fixpoint hex_digits (k : nat) (n : N) : string :=
  match k with
  | O => ""
  | S k' => hex_digits k' (n / 16)%N +:+ String (hex_digit (n mod 16)%N) ""
  end.

(** [str(ObjectId(...))]: twenty-four hexadecimal digits. *)
Definition oid_str (oid : N) : string := hex_digits 24 oid.

(** Python's [str] on a value. *)
Definition py_str (v : value) : string :=
  match v with
  | VNone => "None"
  | VBool true => "True"
  | VBool false => "False"
  | VInt n => pretty n
  | VFloat repr => repr
  | VStr s => s
  | VOid oid => oid_str oid
  | VDate text => text
  end.

(** Python's truth value of a value, as tested by [if c]. *)
Definition truthy (v : value) : bool :=
  match v with
  | VNone => false
  | VBool b => b
  | VInt n => negb (n =? 0)%Z
  | VFloat repr => negb (String.eqb repr "0.0" || String.eqb repr "-0.0")
  | VStr s => negb (String.eqb s "")
  | VOid _ => true
  | VDate _ => true
  end.

(** A byte that continues the character begun before it. *)
Definition is_continuation (c : ascii) : bool :=
  (128 <=? nat_of_ascii c)%nat && (nat_of_ascii c <? 192)%nat.

(** [s[:n]]: the first [n] characters of a text, each with the bytes
    that continue it. *)
Fixpoint take_chars (n : nat) (s : string) : string :=
  match s with
  | EmptyString => EmptyString
  | String c s' =>
      if is_continuation c then String c (take_chars n s')
      else match n with
           | O => EmptyString
           | S n' => String c (take_chars n' s')
           end
  end.

(** [len(s)]: the number of characters of a text. *)
Fixpoint count_chars (s : string) : nat :=
  match s with
  | EmptyString => O
  | String c s' => (if is_continuation c then 0 else 1) + count_chars s'
  end.

(** ** Documents and the normalization of [list_products] *)

Abbreviation document := (gmap string value).

(** The body of the loop of [list_products]:
[[
        d = {**d}
        d["id"] = str(d.pop("_id", ""))
        if "created_at" in d:
            d["created_at"] = str(d["created_at"])
        if "updated_at" in d:
            d["updated_at"] = str(d["updated_at"])
]]
    [{**d}] is a fresh copy, so the record held by the store is left as
    it is and the function is one from documents to documents. *)
Definition stringify_if_present (k : string) (d : document) : document :=
  match d !! k with
  | Some v => <[k := VStr (py_str v)]> d
  | None => d
  end.

Definition normalize (d : document) : document :=
  let popped := default (VStr "") (d !! "_id") in
  let d := delete "_id" d in
  let d := <["id" := VStr (py_str popped)]> d in
  let d := stringify_if_present "created_at" d in
  let d := stringify_if_present "updated_at" d in
  d.

(** ** Exceptions and outcomes *)

(** The exceptions a handler sees: FastAPI's [HTTPException], which the
    framework turns into a response with that status and detail, and any
    other [Exception], of which the handlers use only the text. *)
Inductive exn : Type :=
| HTTPException (status_code : Z) (detail : string)
| Exception (text : string).

(** [str(e)]. *)
Definition exn_str (e : exn) : string :=
  match e with
  | HTTPException status_code detail => pretty status_code +:+ ": " +:+ detail
  | Exception text => text
  end.

(** What a call comes to: it returns, it raises, or it leaves the part of
    Python this development describes ([OutOfModel]: [sorted] on two or
    more values that are not all text). *)
Inductive outcome (A : Type) : Type :=
| Return (a : A)
| Raise (e : exn)
| OutOfModel.
Arguments Return {A} a.
Arguments Raise {A} e.
Arguments OutOfModel {A}.

(** ** Patterns

    The store matches a [$regex] condition with its regular-expression
    engine.  A fragment of the pattern language is described here, on
    ASCII: a character that is not a metacharacter stands for itself,
    [.] stands for any character but a line feed, and a backslash before
    a character that is neither a letter nor a digit makes that
    character stand for itself; with option [i] letters match without
    regard to case; a pattern matches a text when it matches at some
    position of it.  What the engine does with any other pattern, and
    with a text that is not ASCII, is left to the store. *)
Inductive atom : Type :=
| Lit (c : ascii)
| AnyChar.

Definition is_meta (c : ascii) : bool :=
  match c with
  | "\" | "^" | "$" | "." | "[" | "|" | "(" | ")" | "?" | "*" | "+" | "{" => true
  | _ => false
  end%char.

Definition is_ascii (c : ascii) : bool := (nat_of_ascii c <? 128)%nat.
Definition is_upper (c : ascii) : bool :=
  (65 <=? nat_of_ascii c)%nat && (nat_of_ascii c <=? 90)%nat.
Definition is_lower (c : ascii) : bool :=
  (97 <=? nat_of_ascii c)%nat && (nat_of_ascii c <=? 122)%nat.
Definition is_digit (c : ascii) : bool :=
  (48 <=? nat_of_ascii c)%nat && (nat_of_ascii c <=? 57)%nat.
Definition is_alnum (c : ascii) : bool := is_upper c || is_lower c || is_digit c.

(** A text of ASCII characters only. *)
Definition ascii_text (t : string) : bool :=
  forallb is_ascii (list_ascii_of_string t).

(** Case folding of one ASCII character. *)
Definition fold_case (c : ascii) : ascii :=
  if is_upper c then ascii_of_nat (nat_of_ascii c + 32) else c.

(** Reading a pattern; [None] when it leaves the fragment. *)
Fixpoint compile (s : list ascii) : option (list atom) :=
  match s with
  | [] => Some []
  | c :: s' =>
      if Ascii.eqb c "\" then
        match s' with
        | [] => None
        | e :: s'' =>
            if is_alnum e || negb (is_ascii e) then None
            else (Lit e ::.) <$> compile s''
        end
      else if Ascii.eqb c "." then (AnyChar ::.) <$> compile s'
      else if is_meta c || negb (is_ascii c) then None
      else (Lit c ::.) <$> compile s'
  end.

Definition atom_matches (ci : bool) (a : atom) (x : ascii) : bool :=
  match a with
  | Lit c => if ci then Ascii.eqb (fold_case c) (fold_case x) else Ascii.eqb c x
  | AnyChar => negb (Ascii.eqb x "010")
  end.

Fixpoint matches_here (ci : bool) (p : list atom) (t : list ascii) : bool :=
  match p, t with
  | [], _ => true
  | _ :: _, [] => false
  | a :: p', x :: t' => atom_matches ci a x && matches_here ci p' t'
  end.

Fixpoint matches_somewhere (ci : bool) (p : list atom) (t : list ascii) : bool :=
  matches_here ci p t ||
  match t with
  | [] => false
  | _ :: t' => matches_somewhere ci p t'
  end.

(** A pattern of the fragment with its options, none or ["i"]: whether
    case is disregarded, and the pattern read. *)
Definition fragment (pattern options : string) : option (bool * list atom) :=
  match compile (list_ascii_of_string pattern) with
  | Some p =>
      if String.eqb options "i" then Some (true, p)
      else if String.eqb options "" then Some (false, p)
      else None
  | None => None
  end.

(** The engine of a store, for what the fragment leaves out: the error
    text with which it refuses a pattern, if it does, and whether a
    pattern with its options matches a text. *)
Record engine : Type := mkEngine {
  engine_refuses : string → string → option string;
  engine_matches : string → string → string → bool
}.

(** The error with which the store refuses a pattern: none for a pattern
    of the fragment. *)
Definition refusal (regex : engine) (pattern options : string) : option string :=
  match fragment pattern options with
  | Some _ => None
  | None => engine_refuses regex pattern options
  end.

(** [{"$regex": pattern, "$options": options}] against a text. *)
Definition regex_search (regex : engine) (pattern options text : string) : bool :=
  match fragment pattern options with
  | Some (ci, p) =>
      if ascii_text text then matches_somewhere ci p (list_ascii_of_string text)
      else engine_matches regex pattern options text
  | None => engine_matches regex pattern options text
  end.

(** ** Filters *)

(** A condition of a filter dictionary: [{field: v}],
    [{field: {"$regex": pattern, "$options": options}}] and
    [{"$or": [...]}].  A filter is the conjunction of its conditions. *)
#[warnings="-register-all"]
Inductive cond : Type :=
| FieldEq (field : string) (v : value)
| FieldRegex (field : string) (pattern options : string)
| AnyOf (alts : list cond).

(** The error with which the store refuses a condition, if it does: that
    of the first pattern it refuses. *)
Fixpoint refused_cond (regex : engine) (c : cond) : option string :=
  match c with
  | FieldEq _ _ => None
  | FieldRegex _ pattern options => refusal regex pattern options
  | AnyOf alts =>
      (fix first (l : list cond) : option string :=
         match l with
         | [] => None
         | a :: l' =>
             match refused_cond regex a with
             | Some text => Some text
             | None => first l'
             end
         end) alts
  end.

Fixpoint refused_filter (regex : engine) (filter : list cond) : option string :=
  match filter with
  | [] => None
  | c :: filter' =>
      match refused_cond regex c with
      | Some text => Some text
      | None => refused_filter regex filter'
      end
  end.

(** Whether a document meets a condition.  A pattern is matched against
    a field that holds text and meets no other field. *)
Fixpoint holds (regex : engine) (d : document) (c : cond) : bool :=
  match c with
  | FieldEq field v => bool_decide (d !! field = Some v)
  | FieldRegex field pattern options =>
      match d !! field with
      | Some (VStr text) => regex_search regex pattern options text
      | _ => false
      end
  | AnyOf alts => existsb (holds regex d) alts
  end.

Definition meets (regex : engine) (filter : list cond) (d : document) : bool :=
  forallb (holds regex d) filter.

(** ** The document store *)

(** The commands the handlers send to the store. *)
Inductive command : Type :=
| InsertOne (collection : string)
| Find (collection : string)
| CountDocuments (collection : string)
| Distinct (collection field : string)
| ListCollectionNames.

(** The store behind the handle [db]: the database name, the documents
    of each collection in the order the store iterates over them (the
    order of insertion), the identifier the next insertion is given,
    its regular-expression engine, and what will go wrong:
    [db_faults] holds, for the commands to come and in their order,
    [Some text] for one that will raise an exception with that text and
    [None] for one that will not; commands beyond the list do not raise.
    [db_journal] is the list of commands received so far; it is there
    to state that a handler did or did not reach the store. *)
Record Database : Type := mkDatabase {
  db_name : string;
  db_colls : gmap string (list document);
  db_next_oid : N;
  db_faults : list (option string);
  db_regex : engine;
  db_journal : list command
}.

Definition collection (c : string) (s : Database) : list document :=
  default [] (db_colls s !! c).

(** Computations over a state [S] that return, raise or leave the
    model; the state reached when an exception is raised is the one its
    handler starts from. *)
Definition St (S A : Type) : Type := S → outcome A * S.

Definition ret {S A} (a : A) : St S A := λ s, (Return a, s).
Definition raise {S A} (e : exn) : St S A := λ s, (Raise e, s).
Definition bind {S A B} (m : St S A) (k : A → St S B) : St S B :=
  λ s, match m s with
       | (Return a, s') => k a s'
       | (Raise e, s') => (Raise e, s')
       | (OutOfModel, s') => (OutOfModel, s')
       end.

(** [try: m except Exception as e: h e]. *)
Definition try_except {S A} (m : St S A) (h : exn → St S A) : St S A :=
  λ s, match m s with
       | (Raise e, s') => h e s'
       | r => r
       end.

Notation "'let!' x ':=' m 'in' k" := (bind m (λ x, k))
  (at level 10, x name, m at level 100, k at level 200, only parsing).
Notation "'do!' m 'in' k" := (bind m (λ _, k))
  (at level 10, m at level 100, k at level 200, only parsing).

(** Computations on the store. *)
Abbreviation M := (St Database).

(** The store once it has received command [c]. *)
Definition noted (c : command) (s : Database) : Database :=
  mkDatabase (db_name s) (db_colls s) (db_next_oid s) (tail (db_faults s))
             (db_regex s) (db_journal s ++ [c]).

(** A command: it is entered in the journal, and raises if it is one
    that goes wrong. *)
Definition send {A} (c : command) (body : M A) : M A :=
  λ s,
    match db_faults s with
    | Some text :: _ => (Raise (Exception text), noted c s)
    | _ => body (noted c s)
    end.

(** The store once it has taken [doc] into collection [c]: the document
    gets the next identifier and comes after the documents held. *)
Definition with_document (c : string) (doc : document) (s : Database) : Database :=
  mkDatabase (db_name s)
             (<[c := collection c s ++ [<["_id" := VOid (db_next_oid s)]> doc]]> (db_colls s))
             (db_next_oid s + 1) (db_faults s) (db_regex s) (db_journal s).

(** [db[c].insert_one(doc)] for a [doc] without identifier; the
    identifier given is returned. *)
Definition insert_one (c : string) (doc : document) : M value :=
  send (InsertOne c) (λ s, (Return (VOid (db_next_oid s)), with_document c doc s)).

(** [db[c].find(filter).limit(limit)], read to the end; the store raises
    when it refuses a pattern of the filter. *)
Definition find (c : string) (filter : list cond) (limit : Z) : M (list document) :=
  send (Find c) (λ s,
    match refused_filter (db_regex s) filter with
    | Some text => (Raise (Exception text), s)
    | None =>
        (Return (take (Z.to_nat limit)
                   (List.filter (meets (db_regex s) filter) (collection c s))), s)
    end).

(** [db[c].count_documents({})]. *)
Definition count_documents (c : string) : M Z :=
  send (CountDocuments c) (λ s, (Return (Z.of_nat (length (collection c s))), s)).

(** [db[c].distinct(field)]: the values [field] takes in the documents
    of the collection, each once. *)
Definition distinct (c field : string) : M (list value) :=
  send (Distinct c field) (λ s,
    (Return (remove_dups (omap (λ d : document, d !! field) (collection c s))), s)).

(** [db.list_collection_names()]. *)
Definition list_collection_names : M (list string) :=
  send ListCollectionNames (λ s, (Return (map_to_list (db_colls s)).*1, s)).

(** ** The schema and the data access layer *)

(** Modelled from the spec: the [Product] model of [schemas.py], which is
    not among the sources.  Section 3 of the specification gives its
    fields: [title] (text), [description] (text, optional), [price]
    (a number, carried here by its [repr]), [category] (text, optional)
    and [in_stock] (a flag). *)
Record Product : Type := mkProduct {
  title : string;
  description : option string;
  price : string;
  category : option string;
  in_stock : bool
}.

Definition optional_text (o : option string) : value :=
  match o with
  | Some s => VStr s
  | None => VNone
  end.

(** Modelled from the spec: the record [create_document] hands to the
    store for a product, one field of the document per field of the
    model. *)
Definition to_document (p : Product) : document :=
  <["title" := VStr (title p)]>
  (<["description" := optional_text (description p)]>
  (<["price" := VFloat (price p)]>
  (<["category" := optional_text (category p)]>
  (<["in_stock" := VBool (in_stock p)]> ∅)))).

(** Modelled from the spec: [create_document] of [database.py], which is
    not among the sources.  Section 4.1: it "inserts a validated record
    into the named collection; returns the newly assigned identifier as
    text; fails [...] if the underlying connection is unavailable or the
    write is rejected". *)
Definition create_document (collection_name : string) (data : Product) : M string :=
  let! oid := insert_one collection_name (to_document data) in
  ret (py_str oid).

(** Modelled from the spec: [get_documents] of [database.py], which is
    not among the sources.  Section 4.1: it "returns a sequence of raw
    stored records matching [filter] [...], capped at [limit]; produces
    an empty sequence if nothing matches; iteration order is
    store-defined". *)
Definition get_documents (collection_name : string) (filter_dict : list cond)
    (limit : Z) : M (list document) :=
  find collection_name filter_dict limit.

(** ** The handlers of [main.py] *)

(** A handler reads the process-wide handle [db], which is [None] when
    no connection was made at start-up. *)
Abbreviation handler := (St (option Database)).

Definition run {A} (m : M A) (s : Database) : outcome A * option Database :=
  let '(o, s') := m s in (o, Some s').

(** [if db is None: raise HTTPException(status_code=500, detail="Database not configured")],
    the first statement of the four handlers that use the store. *)
Definition require_db {A} (m : M A) : handler A :=
  λ db,
    match db with
    | None => (Raise (HTTPException 500 "Database not configured"), None)
    | Some s => run m s
    end.

(** The truth value of an optional text parameter: [None] and [""] are
    false. *)
Definition given (o : option string) : option string :=
  match o with
  | Some s => if String.eqb s "" then None else Some s
  | None => None
  end.

(** The filter built by [list_products]:
[[
    filter_dict = {}
    if category:
        filter_dict["category"] = category
    if search:
        filter_dict["$or"] = [
            {"title": {"$regex": search, "$options": "i"}},
            {"description": {"$regex": search, "$options": "i"}},
        ]
]] *)
Definition filter_dict (category search : option string) : list cond :=
  match given category with
  | Some c => [FieldEq "category" (VStr c)]
  | None => []
  end ++
  match given search with
  | Some s => [AnyOf [FieldRegex "title" s "i"; FieldRegex "description" s "i"]]
  | None => []
  end.

Definition list_products (category search : option string) (limit : Z)
  : handler (list document) :=
  require_db (
    let! docs := get_documents "product" (filter_dict category search) limit in
    ret (normalize <$> docs)).

Definition create_product (product : Product) : handler document :=
  require_db (
    try_except
      (let! inserted_id := create_document "product" product in
       ret {["id" := VStr inserted_id]})
      (λ e, raise (HTTPException 500 (exn_str e)))).

(** The order of Python on [str], which is the order of [String.leb]:
    character by character, a proper prefix first. *)
Definition string_le (a b : string) : Prop := String.leb a b = true.

#[global] Instance string_le_dec (a b : string) : Decision (string_le a b).
Proof. unfold string_le. apply _. Defined.

Definition text_of (v : value) : option string :=
  match v with
  | VStr s => Some s
  | _ => None
  end.

(** Python's [sorted] on a list of values: the empty list and a list of
    one value as they are, a list of texts in ascending order; no other
    list is described ([None]). *)
Definition py_sorted (l : list value) : option (list value) :=
  match l with
  | [] | [_] => Some l
  | _ => (λ texts, VStr <$> merge_sort string_le texts) <$> mapM text_of l
  end.

Definition sorted {S} (l : list value) : St S (list value) :=
  match py_sorted l with
  | Some r => ret r
  | None => λ s, (OutOfModel, s)
  end.

Definition list_categories : handler (list value) :=
  require_db (
    try_except
      (let! categories := distinct "product" "category" in
       sorted (List.filter truthy categories))
      (λ e, raise (HTTPException 500 (exn_str e)))).

Definition sample_products : list Product := [
  mkProduct "Margherita Pizza" (Some "Classic pizza with tomato, mozzarella, and basil") "9.99" (Some "Pizza") true;
  mkProduct "Pepperoni Pizza" (Some "Pepperoni, mozzarella, tomato sauce") "11.49" (Some "Pizza") true;
  mkProduct "Veggie Burger" (Some "Plant-based patty with fresh veggies") "8.99" (Some "Burgers") true;
  mkProduct "Cheeseburger" (Some "Beef patty, cheese, lettuce, tomato") "10.49" (Some "Burgers") true;
  mkProduct "Chicken Caesar Salad" (Some "Grilled chicken with romaine and Caesar dressing") "7.99" (Some "Salads") true;
  mkProduct "Sushi Platter" (Some "Assorted rolls and nigiri") "14.99" (Some "Sushi") true;
  mkProduct "Pad Thai" (Some "Stir-fried rice noodles with tamarind sauce") "12.49" (Some "Asian") true;
  mkProduct "Chocolate Cake" (Some "Rich and moist chocolate cake slice") "4.99" (Some "Desserts") true
].

(** [for x in l: body x]. *)
Fixpoint for_each {S A B} (l : list A) (body : A → St S B) : St S unit :=
  match l with
  | [] => ret tt
  | x :: l' => do! body x in for_each l' body
  end.

(** [{"inserted": inserted, "total": total}]. *)
Definition seed_report (inserted total : Z) : document :=
  <["inserted" := VInt inserted]> (<["total" := VInt total]> ∅).

Definition seed_products : handler document :=
  require_db (
    try_except
      (let! n := count_documents "product" in
       let! inserted :=
         (if (n =? 0)%Z
          then do! for_each sample_products (create_document "product") in
               ret (Z.of_nat (length sample_products))
          else ret 0%Z) in
       let! total := count_documents "product" in
       ret (seed_report inserted total))
      (λ e, raise (HTTPException 500 (exn_str e)))).

Definition read_root : handler (gmap string string) :=
  ret {["message" := "Food Shop Backend Running"]}.

(** *** The diagnostic handler *)

(** The values of the dictionary [test_database] returns: [None], a text
    or a list of texts. *)
Inductive jval : Type :=
| JNone
| JStr (s : string)
| JList (l : list string).

(** [test_database] runs over its local dictionary [response] and the
    handle [db]. *)
Abbreviation diag := (St (gmap string jval * option Database)).

(** [response[k] = v]. *)
Definition assign (k : string) (v : jval) : diag unit :=
  λ '(response, db), (Return tt, (<[k := v]> response, db)).

(** A command sent through [db] from within [test_database]; on the
    handle [None] Python raises an [AttributeError]. *)
Definition through_db {A} (method : string) (m : M A) : diag A :=
  λ '(response, db),
    match db with
    | Some s => let '(o, s') := m s in (o, (response, Some s'))
    | None =>
        (Raise (Exception ("'NoneType' object has no attribute '" +:+ method +:+ "'")),
         (response, None))
    end.

Definition database_name_of (db : option Database) : diag string :=
  match db with
  | Some s => ret (db_name s)
  | None => raise (Exception "'NoneType' object has no attribute 'name'")
  end.

(** [os.getenv(k)] as a truth value: set, and not empty. *)
Definition getenv_set (environ : gmap string string) (k : string) : bool :=
  bool_decide (is_Some (given (environ !! k))).

Definition test_database_body (environ : gmap string string) (db : option Database)
  : diag (gmap string jval) :=
  do! try_except
        (match db with
         | Some _ =>
             do! assign "database" (JStr "✅ Available") in
             do! assign "database_url" (JStr "✅ Configured") in
             let! name := database_name_of db in
             do! assign "database_name" (JStr name) in
             do! assign "connection_status" (JStr "Connected") in
             try_except
               (let! collections := through_db "list_collection_names" list_collection_names in
                do! assign "collections" (JList (take 10 collections)) in
                assign "database" (JStr "✅ Connected & Working"))
               (λ e, assign "database"
                       (JStr ("⚠️  Connected but Error: " +:+ take_chars 50 (exn_str e))))
         | None => assign "database" (JStr "⚠️  Available but not initialized")
         end)
        (λ e, assign "database" (JStr ("❌ Error: " +:+ take_chars 50 (exn_str e)))) in
  do! assign "database_url"
        (JStr (if getenv_set environ "DATABASE_URL" then "✅ Set" else "❌ Not Set")) in
  do! assign "database_name"
        (JStr (if getenv_set environ "DATABASE_NAME" then "✅ Set" else "❌ Not Set")) in
  λ '(response, db), (Return response, (response, db)).

(** The dictionary [response] as [test_database] first sets it. *)
Definition initial_response : gmap string jval :=
  <["backend" := JStr "✅ Running"]>
  (<["database" := JStr "❌ Not Available"]>
  (<["database_url" := JNone]>
  (<["database_name" := JNone]>
  (<["connection_status" := JStr "Not Connected"]>
  (<["collections" := JList []]> ∅))))).

Definition test_database (environ : gmap string string) : handler (gmap string jval) :=
  λ db,
    let '(o, (_, db')) := test_database_body environ db (initial_response, db) in
    (o, db').

(** ** The response models *)

(** What the validation of a returned value against the response model
    of a route comes to: it passes; it fails, and the framework answers
    500; or it depends on conversions this development does not
    describe (a number where a text is declared, a text where a number
    is). *)
Inductive verdict : Type :=
| Pass
| Fail
| Unsettled.

Definition both (a b : verdict) : verdict :=
  match a, b with
  | Fail, _ | _, Fail => Fail
  | Unsettled, _ | _, Unsettled => Unsettled
  | Pass, Pass => Pass
  end.

Definition passes (v : verdict) : bool :=
  match v with Pass => true | _ => false end.
Definition fails (v : verdict) : bool :=
  match v with Fail => true | _ => false end.

(** An item of [List[str]], the response model of [list_categories]. *)
Definition str_check (v : value) : verdict :=
  match v with
  | VStr _ => Pass
  | VInt _ | VFloat _ | VBool _ => Unsettled
  | VNone | VOid _ | VDate _ => Fail
  end.

(** The [repr] of a float written with digits, a point and digits, as
    that of a price is: such a float is a number and is not negative. *)
Fixpoint decimal_from (seen_digit : bool) (l : list ascii) : bool :=
  match l with
  | [] => false
  | c :: l' =>
      if Ascii.eqb c "."
      then seen_digit && negb (bool_decide (l' = [])) && forallb is_digit l'
      else is_digit c && decimal_from true l'
  end.

Definition decimal (repr : string) : bool :=
  decimal_from false (list_ascii_of_string repr).

(** Modelled from the spec: the fields of [Product] (section 3), which
    [ProductResponse] of [main.py] inherits from [schemas.py], as far as
    the validation of a returned record goes.  [title]: a text, not
    empty. *)
Definition check_title (o : option value) : verdict :=
  match o with
  | Some (VStr t) => if String.eqb t "" then Unsettled else Pass
  | Some (VInt _ | VFloat _ | VBool _) => Unsettled
  | Some (VNone | VOid _ | VDate _) | None => Fail
  end.

(** [description], [category] and [id: Optional[str] = None]: a text or
    [None], [None] when absent. *)
Definition check_optional_text (o : option value) : verdict :=
  match o with
  | None | Some VNone | Some (VStr _) => Pass
  | Some (VInt _ | VFloat _ | VBool _) => Unsettled
  | Some (VOid _ | VDate _) => Fail
  end.

(** [price]: a number that is not negative. *)
Definition check_price (o : option value) : verdict :=
  match o with
  | Some (VFloat repr) => if decimal repr then Pass else Unsettled
  | Some (VInt _ | VBool _ | VStr _) => Unsettled
  | Some (VNone | VOid _ | VDate _) | None => Fail
  end.

(** [in_stock]: a flag, true when absent. *)
Definition check_in_stock (o : option value) : verdict :=
  match o with
  | None | Some (VBool _) => Pass
  | Some (VInt _ | VFloat _ | VStr _) => Unsettled
  | Some (VNone | VOid _ | VDate _) => Fail
  end.

(** [class ProductResponse(Product): id: Optional[str] = None]: the
    validation of a returned record, and the record the framework
    answers with when it passes: the declared fields, with their
    defaults, and no other. *)
Definition ProductResponse_check (r : document) : verdict :=
  both (check_title (r !! "title"))
  (both (check_optional_text (r !! "description"))
  (both (check_price (r !! "price"))
  (both (check_optional_text (r !! "category"))
  (both (check_in_stock (r !! "in_stock"))
        (check_optional_text (r !! "id")))))).

Definition ProductResponse_body (r : document) : document :=
  <["title" := default VNone (r !! "title")]>
  (<["description" := default VNone (r !! "description")]>
  (<["price" := default VNone (r !! "price")]>
  (<["category" := default VNone (r !! "category")]>
  (<["in_stock" := default (VBool true) (r !! "in_stock")]>
  (<["id" := default VNone (r !! "id")]> ∅))))).

(** ** The routes *)

(** What the framework answers: the content a handler returned, under
    the status of the route; the status and detail of an
    [HTTPException]; status 500 for any other exception and for a
    content that fails the response model of the route; status 422 for
    a request whose parameters it refuses, in which case the handler is
    not called. *)
Inductive response (A : Type) : Type :=
| Response (status_code : Z) (content : A)
| ErrorResponse (status_code : Z) (detail : string)
| InternalServerError
| UnprocessableEntity
| Undescribed.
Arguments Response {A} status_code content.
Arguments ErrorResponse {A} status_code detail.
Arguments InternalServerError {A}.
Arguments UnprocessableEntity {A}.
Arguments Undescribed {A}.

Definition status {A} (r : response A) : option Z :=
  match r with
  | Response status_code _ => Some status_code
  | ErrorResponse status_code _ => Some status_code
  | InternalServerError => Some 500%Z
  | UnprocessableEntity => Some 422%Z
  | Undescribed => None
  end.

Definition respond {A} (status_code : Z) (o : outcome A) : response A :=
  match o with
  | Return a => Response status_code a
  | Raise (HTTPException s detail) => ErrorResponse s detail
  | Raise (Exception _) => InternalServerError
  | OutOfModel => Undescribed
  end.

(** A route without response model. *)
Definition route {A} (status_code : Z) (h : handler A)
  : option Database → response A * option Database :=
  λ db, let '(o, db') := h db in (respond status_code o, db').

(** [response_model=List[...]]: the list a handler returned is validated
    item by item; one item that fails makes the answer 500. *)
Definition response_model {A} (check : A → verdict) (body : A → A) (l : list A)
  : response (list A) :=
  if existsb (λ x, fails (check x)) l then InternalServerError
  else if forallb (λ x, passes (check x)) l then Response 200 (body <$> l)
  else Undescribed.

(** A route with a list as response model. *)
Definition route_with_model {A} (check : A → verdict) (body : A → A)
    (h : handler (list A))
  : option Database → response (list A) * option Database :=
  λ db,
    let '(o, db') := h db in
    (match o with
     | Return l => response_model check body l
     | _ => respond 200 o
     end, db').

(** [limit: int = Query(100, ge=1, le=200)]: the value the handler is
    given, or [None] when the request is refused. *)
Definition Query_limit (limit : option Z) : option Z :=
  match limit with
  | None => Some 100%Z
  | Some n => if ((1 <=? n) && (n <=? 200))%Z then Some n else None
  end.

(** [GET /api/products?category=&search=&limit=], with
    [response_model=List[ProductResponse]]. *)
Definition GET_api_products (category search : option string) (limit : option Z)
  : option Database → response (list document) * option Database :=
  match Query_limit limit with
  | Some n =>
      route_with_model ProductResponse_check ProductResponse_body
        (list_products category search n)
  | None => λ db, (UnprocessableEntity, db)
  end.

(** [POST /api/products], for a body that validates as a [Product]. *)
Definition POST_api_products (product : Product) :=
  route 201 (create_product product).

(** [GET /api/categories], with [response_model=List[str]]. *)
Definition GET_api_categories :=
  route_with_model str_check id list_categories.

(** [POST /api/seed]. *)
Definition POST_api_seed := route 200 seed_products.

(** [GET /test]. *)
Definition GET_test (environ : gmap string string) :=
  route 200 (test_database environ).

(** ** Notions of the specification *)







(** A stored record that passes the response model once normalized, and
    a product that does once stored. *)
Definition conforming (d : document) : Prop :=
  ProductResponse_check (normalize d) = Pass.

Definition valid_product (p : Product) : Prop :=
  title p ≠ "" ∧ decimal (price p) = true.

(** The condition [list_products] adds to the filter for [search]. *)
Definition search_cond (s : string) : cond :=
  AnyOf [FieldRegex "title" s "i"; FieldRegex "description" s "i"].


(** The store after [create_document c p] on a store in order. *)
Definition after_create (c : string) (s : Database) (p : Product) : Database :=
  with_document c (to_document p) (noted (InsertOne c) s).

(** Products as the store holds them under successive identifiers. *)
Fixpoint stored_from (oid : N) (l : list Product) : list document :=
  match l with
  | [] => []
  | p :: l' => <["_id" := VOid oid]> (to_document p) :: stored_from (oid + 1) l'
  end.

(** The category of a record is a text, or [None], or absent: what the
    [Product] model lets it be. *)
Definition category_is_text (d : document) : Prop :=
  match d !! "category" with
  | None | Some VNone | Some (VStr _) => True
  | Some _ => False
  end.

(** The entries [test_database] sets once it has found a handle, and
    the two it sets last, from the environment. *)
Definition connected_entries (s : Database) (response : gmap string jval)
  : gmap string jval :=
  <["connection_status" := JStr "Connected"]>
  (<["database_name" := JStr (db_name s)]>
  (<["database_url" := JStr "✅ Configured"]>
  (<["database" := JStr "✅ Available"]> response))).

Definition environment_entries (environ : gmap string string)
    (response : gmap string jval) : gmap string jval :=
  <["database_name" := JStr (if getenv_set environ "DATABASE_NAME"
                             then "✅ Set" else "❌ Not Set")]>
  (<["database_url" := JStr (if getenv_set environ "DATABASE_URL"
                            then "✅ Set" else "❌ Not Set")]> response).

(** The keys of the diagnostic dictionary. *)
Definition report_keys : gset string :=
  {[ "backend"; "database"; "database_url"; "database_name";
     "connection_status"; "collections" ]}.

(** The six fields of a record [GET /api/products] answers with. *)
Definition product_keys : gset string :=
  {[ "title"; "description"; "price"; "category"; "in_stock"; "id" ]}.

(** ** Stores used as examples *)

(** An engine for the examples: it takes every pattern, and finds a
    pattern beyond the fragment in every text, which is right for a
    pattern that matches the empty text, such as [a*]. *)
Definition lenient : engine := mkEngine (λ _ _, None) (λ _ _ _, true).

Definition empty_shop : Database := mkDatabase "shop" ∅ 0 [] lenient [].

(** A product as the store holds it under identifier [oid]. *)
Definition stored (oid : N) (p : Product) : document :=
  <["_id" := VOid oid]> (to_document p).

Definition margherita : Product :=
  mkProduct "Margherita Pizza" (Some "Classic pizza with tomato, mozzarella, and basil")
            "9.99" (Some "Pizza") true.

Definition pepperoni : Product :=
  mkProduct "Pepperoni Pizza" (Some "Pepperoni, mozzarella, tomato sauce")
            "11.49" (Some "Pizza") true.


Definition pizza_shop : Database :=
  mkDatabase "shop" {["product" := [stored 0 margherita; stored 1 pepperoni]]} 2 []
             lenient [].


(** A store that cannot be reached: its next command raises. *)
Definition refused : string :=
  "localhost:27017: [Errno 111] Connection refused (configured timeouts: connectTimeoutMS: 20000.0ms)".

Definition unreachable_shop : Database :=
  mkDatabase "shop" ∅ 0 [Some refused] lenient [].

(** A store that takes a count and two insertions, and then cannot be
    reached. *)
Definition failing_shop : Database :=
  mkDatabase "shop" ∅ 0 [None; None; None; Some refused] lenient [].

Definition sushi : Product :=
  mkProduct "Sushi Platter" (Some "Assorted rolls and nigiri") "14.99" (Some "Sushi") true.

Definition tap_water : Product :=
  mkProduct "Tap Water" None "0.0" (Some "") true.

(** A store that holds three products, one of them with the empty text
    as category. *)
Definition three_products : Database :=
  mkDatabase "shop"
    {["product" := [stored 0 margherita; stored 1 sushi; stored 2 tap_water]]}
    3 [] lenient [].

(** * Properties *)

(** An equation between closed terms, checked by evaluation of both
    sides. *)
Ltac by_evaluation :=
  cbv beta;
  lazymatch goal with
  | |- ?a = ?b => vm_cast_no_check (@eq_refl _ b)
  end.

(** ** Normalization *)

Lemma stringify_if_present_lookup (k j : string) (d : document) :
  stringify_if_present k d !! j =
  if decide (k = j) then (λ v, VStr (py_str v)) <$> d !! j else d !! j.
Proof.
  unfold stringify_if_present.
  destruct (d !! k) as [v|] eqn:Hk; case_decide; subst; simplify_map_eq; done.
Qed.

Lemma normalize_lookup_other (d : document) (k : string) :
  k ≠ "_id" → k ≠ "id" → k ≠ "created_at" → k ≠ "updated_at" →
  normalize d !! k = d !! k.
Proof.
  intros H1 H2 H3 H4. unfold normalize.
  rewrite !stringify_if_present_lookup.
  repeat case_decide; simplify_eq.
  by rewrite lookup_insert_ne, lookup_delete_ne.
Qed.

Lemma normalize_lookup_id (d : document) :
  normalize d !! "id" = Some (VStr (py_str (default (VStr "") (d !! "_id")))).
Proof.
  unfold normalize. rewrite !stringify_if_present_lookup.
  repeat case_decide; simplify_eq. by rewrite lookup_insert_eq.
Qed.

Lemma filter_meets_nil regex (l : list document) : List.filter (meets regex []) l = l.
Proof. induction l as [|d l IH]; simpl; by f_equal. Qed.

(** What [list_products] returns is what [get_documents] gave it, each
    record normalized. *)
Lemma list_products_unfold category search limit (s : Database) :
  list_products category search limit (Some s) =
  match get_documents "product" (filter_dict category search) limit s with
  | (Return docs, s') => (Return (normalize <$> docs), Some s')
  | (Raise e, s') => (Raise e, Some s')
  | (OutOfModel, s') => (OutOfModel, Some s')
  end.
Proof.
  unfold list_products, require_db, run, bind, ret.
  by destruct (get_documents _ _ _ s) as [[docs|e|] s'].
Qed.

(** C8. Every record [list_products] returns is the normalization of a
    record [get_documents] gave it, and normalization: removes the field
    [_id]; sets [id] to the text of the identifier removed (of the empty
    text, were there none); replaces [created_at] and [updated_at], when
    present, by their text, and adds neither when absent; leaves every
    other field as it is, present or absent. *)
Theorem normalization_frame :
  (∀ category search limit (s : Database),
     fst (list_products category search limit (Some s)) =
     match fst (get_documents "product" (filter_dict category search) limit s) with
     | Return docs => Return (normalize <$> docs)
     | Raise e => Raise e
     | OutOfModel => OutOfModel
     end) ∧
  ∀ d : document,
    normalize d !! "_id" = None ∧
    normalize d !! "id" = Some (VStr (py_str (default (VStr "") (d !! "_id")))) ∧
    normalize d !! "created_at" = (λ v, VStr (py_str v)) <$> d !! "created_at" ∧
    normalize d !! "updated_at" = (λ v, VStr (py_str v)) <$> d !! "updated_at" ∧
    ∀ k : string,
      k ≠ "_id" → k ≠ "id" → k ≠ "created_at" → k ≠ "updated_at" →
      normalize d !! k = d !! k.
Proof.
  split.
  - intros. rewrite list_products_unfold.
    by destruct (get_documents _ _ _ s) as [[docs|e|] s'].
  - intros d. split_and!.
    + unfold normalize. rewrite !stringify_if_present_lookup.
      repeat case_decide; simplify_eq.
      by rewrite lookup_insert_ne, lookup_delete_eq.
    + apply normalize_lookup_id.
    + unfold normalize. rewrite !stringify_if_present_lookup.
      repeat case_decide; simplify_eq.
      by rewrite lookup_insert_ne, lookup_delete_ne.
    + unfold normalize. rewrite !stringify_if_present_lookup.
      repeat case_decide; simplify_eq.
      by rewrite lookup_insert_ne, lookup_delete_ne.
    + apply normalize_lookup_other.
Qed.

(** ** The store queried by [list_products] *)

Lemma collection_noted c k (s : Database) : collection c (noted k s) = collection c s.
Proof. done. Qed.

Lemma db_faults_noted k (s : Database) : db_faults (noted k s) = tail (db_faults s).
Proof. done. Qed.

Lemma send_in_order {A} c (body : M A) (s : Database) :
  db_faults s = [] → send c body s = body (noted c s).
Proof. intros Hs. unfold send. by rewrite Hs. Qed.

Lemma send_out_of_order {A} c (body : M A) (s : Database) text rest :
  db_faults s = Some text :: rest → send c body s = (Raise (Exception text), noted c s).
Proof. intros Hs. unfold send. by rewrite Hs. Qed.

Lemma noted_in_order c (s : Database) : db_faults s = [] → db_faults (noted c s) = [].
Proof. intros Hs. by rewrite db_faults_noted, Hs. Qed.

Lemma find_in_order c filter limit (s : Database) :
  db_faults s = [] → refused_filter (db_regex s) filter = None →
  find c filter limit s =
  (Return (take (Z.to_nat limit)
             (List.filter (meets (db_regex s) filter) (collection c s))),
   noted (Find c) s).
Proof.
  intros Hs Hf. unfold find. rewrite send_in_order by done.
  change (db_regex (noted (Find c) s)) with (db_regex s). by rewrite Hf.
Qed.

Lemma find_Return c filter limit (s s' : Database) docs :
  find c filter limit s = (Return docs, s') →
  docs = take (Z.to_nat limit)
           (List.filter (meets (db_regex s) filter) (collection c s)) ∧
  s' = noted (Find c) s.
Proof.
  unfold find, send. destruct (db_faults s) as [|[text|] rest].
  - change (db_regex (noted (Find c) s)) with (db_regex s).
    destruct (refused_filter (db_regex s) filter); [done|]. by intros [= <- <-].
  - done.
  - change (db_regex (noted (Find c) s)) with (db_regex s).
    destruct (refused_filter (db_regex s) filter); [done|]. by intros [= <- <-].
Qed.

Lemma list_products_in_order category search limit (s : Database) :
  db_faults s = [] →
  refused_filter (db_regex s) (filter_dict category search) = None →
  list_products category search limit (Some s) =
  (Return (normalize <$> take (Z.to_nat limit)
             (List.filter (meets (db_regex s) (filter_dict category search))
                (collection "product" s))),
   Some (noted (Find "product") s)).
Proof.
  intros Hs Hf. rewrite list_products_unfold. unfold get_documents.
  by rewrite find_in_order.
Qed.

Lemma list_products_Return category search limit db db' l :
  list_products category search limit db = (Return l, db') →
  ∃ s, db = Some s ∧ db' = Some (noted (Find "product") s) ∧
    l = normalize <$> take (Z.to_nat limit)
          (List.filter (meets (db_regex s) (filter_dict category search))
             (collection "product" s)).
Proof.
  destruct db as [s|]; [|done]. rewrite list_products_unfold.
  destruct (get_documents _ _ _ s) as [[docs|e|] s'] eqn:Hg; [|done..].
  intros [= <- <-]. apply find_Return in Hg as [-> ->]. eauto.
Qed.

(** ** The response models *)

Lemma response_model_Response {A} (check : A → verdict) (body : A → A) l st c :
  response_model check body l = Response st c →
  st = 200%Z ∧ c = body <$> l ∧ Forall (λ x, check x = Pass) l.
Proof.
  unfold response_model. destruct (existsb _ l); [done|].
  destruct (forallb _ l) eqn:Hp; [|done]. intros [= <- <-].
  split_and!; [done..|]. apply Forall_forall. intros x Hx.
  rewrite forallb_forall in Hp. apply list_elem_of_In, Hp in Hx.
  by destruct (check x).
Qed.

Lemma response_model_pass {A} (check : A → verdict) (body : A → A) l :
  Forall (λ x, check x = Pass) l →
  response_model check body l = Response 200 (body <$> l).
Proof.
  intros Hl. unfold response_model.
  assert (existsb (λ x, fails (check x)) l = false) as ->.
  { induction Hl as [|x l Hx _ IH]; [done|]. simpl. by rewrite Hx, IH. }
  assert (forallb (λ x, passes (check x)) l = true) as ->; [|done].
  induction Hl as [|x l Hx _ IH]; [done|]. simpl. by rewrite Hx, IH.
Qed.

Lemma response_model_fail {A} (check : A → verdict) (body : A → A) l x :
  x ∈ l → check x = Fail → response_model check body l = InternalServerError.
Proof.
  intros Hx Hc. unfold response_model.
  assert (existsb (λ x, fails (check x)) l = true) as ->; [|done].
  apply existsb_exists. exists x. split; [by apply list_elem_of_In|by rewrite Hc].
Qed.



Lemma ProductResponse_body_lookup (r : document) :
  ProductResponse_body r !! "title" = Some (default VNone (r !! "title")) ∧
  ProductResponse_body r !! "description" = Some (default VNone (r !! "description")) ∧
  ProductResponse_body r !! "price" = Some (default VNone (r !! "price")) ∧
  ProductResponse_body r !! "category" = Some (default VNone (r !! "category")) ∧
  ProductResponse_body r !! "in_stock" = Some (default (VBool true) (r !! "in_stock")) ∧
  ProductResponse_body r !! "id" = Some (default VNone (r !! "id")) ∧
  dom (ProductResponse_body r) = product_keys.
Proof.
  unfold ProductResponse_body. split_and!; try by simplify_map_eq.
  all: rewrite !dom_insert_L, dom_empty_L; unfold product_keys; set_solver.
Qed.

(** ** The route of [list_products] *)

Lemma GET_api_products_unfold category search limit n db :
  Query_limit limit = Some n →
  GET_api_products category search limit db =
  (match fst (list_products category search n db) with
   | Return l => response_model ProductResponse_check ProductResponse_body l
   | o => respond 200 o
   end, snd (list_products category search n db)).
Proof.
  intros Hq. unfold GET_api_products, route_with_model. rewrite Hq.
  by destruct (list_products category search n db) as [[l|e|] db'].
Qed.

Lemma GET_api_products_Response category search limit db db' st l :
  GET_api_products category search limit db = (Response st l, db') →
  ∃ n s, Query_limit limit = Some n ∧ st = 200%Z ∧ db = Some s ∧
    db' = Some (noted (Find "product") s) ∧
    Forall conforming
      (take (Z.to_nat n)
         (List.filter (meets (db_regex s) (filter_dict category search))
            (collection "product" s))) ∧
    l = ProductResponse_body <$>
          (normalize <$> take (Z.to_nat n)
             (List.filter (meets (db_regex s) (filter_dict category search))
                (collection "product" s))).
Proof.
  destruct (Query_limit limit) as [n|] eqn:Hq.
  2:{ unfold GET_api_products. by rewrite Hq. }
  rewrite (GET_api_products_unfold _ _ _ n) by done.
  destruct (list_products category search n db) as [[l'|[]|] db''] eqn:Hl; [|done..].
  simpl. intros [= Hr <-].
  apply list_products_Return in Hl as (s & -> & -> & ->).
  apply response_model_Response in Hr as (-> & -> & Hp).
  exists n, s. split_and!; try done. by apply Forall_fmap in Hp.
Qed.

Lemma GET_api_products_in_order category search limit n (s : Database) :
  Query_limit limit = Some n → db_faults s = [] →
  refused_filter (db_regex s) (filter_dict category search) = None →
  Forall conforming
    (take (Z.to_nat n)
       (List.filter (meets (db_regex s) (filter_dict category search))
          (collection "product" s))) →
  GET_api_products category search limit (Some s) =
  (Response 200
     (ProductResponse_body <$>
        (normalize <$> take (Z.to_nat n)
           (List.filter (meets (db_regex s) (filter_dict category search))
              (collection "product" s)))),
   Some (noted (Find "product") s)).
Proof.
  intros Hq Hs Hf Hc. rewrite (GET_api_products_unfold _ _ _ n) by done.
  rewrite list_products_in_order by done. simpl.
  rewrite response_model_pass; [done|]. by apply Forall_fmap.
Qed.

(** ** Products as they are stored *)

Lemma normalize_stored_fields (oid : N) (p : Product) :
  normalize (stored oid p) !! "id" = Some (VStr (oid_str oid)) ∧
  normalize (stored oid p) !! "title" = Some (VStr (title p)) ∧
  normalize (stored oid p) !! "description" = Some (optional_text (description p)) ∧
  normalize (stored oid p) !! "price" = Some (VFloat (price p)) ∧
  normalize (stored oid p) !! "category" = Some (optional_text (category p)) ∧
  normalize (stored oid p) !! "in_stock" = Some (VBool (in_stock p)).
Proof.
  split_and!;
    [rewrite normalize_lookup_id | rewrite normalize_lookup_other by done..];
    unfold stored, to_document; by simplify_map_eq.
Qed.

(** A valid product, stored, validates against the response model. *)
Lemma conforming_stored (oid : N) (p : Product) :
  valid_product p → conforming (stored oid p).
Proof.
  intros [Ht Hp]. unfold conforming, ProductResponse_check.
  destruct (normalize_stored_fields oid p) as (-> & -> & -> & -> & -> & ->).
  simpl. rewrite Hp. destruct (String.eqb_spec (title p) ""); [done|].
  by destruct (description p), (category p).
Qed.

(** The record answered for a stored product. *)
Lemma body_stored_fields (oid : N) (p : Product) :
  let r := ProductResponse_body (normalize (stored oid p)) in
  r !! "id" = Some (VStr (oid_str oid)) ∧
  r !! "title" = Some (VStr (title p)) ∧
  r !! "description" = Some (optional_text (description p)) ∧
  r !! "price" = Some (VFloat (price p)) ∧
  r !! "category" = Some (optional_text (category p)) ∧
  r !! "in_stock" = Some (VBool (in_stock p)).
Proof.
  intros r. unfold r.
  destruct (ProductResponse_body_lookup (normalize (stored oid p)))
    as (-> & -> & -> & -> & -> & -> & _).
  by destruct (normalize_stored_fields oid p) as (-> & -> & -> & -> & -> & ->).
Qed.

Lemma valid_margherita : valid_product margherita.
Proof. split; [done|reflexivity]. Qed.

Lemma valid_pepperoni : valid_product pepperoni.
Proof. split; [done|reflexivity]. Qed.

Lemma valid_sushi : valid_product sushi.
Proof. split; [done|reflexivity]. Qed.

Lemma valid_tap_water : valid_product tap_water.
Proof. split; [done|reflexivity]. Qed.


Lemma collection_pizza_shop :
  collection "product" pizza_shop = [stored 0 margherita; stored 1 pepperoni].
Proof. unfold collection, pizza_shop. simpl db_colls. by rewrite lookup_singleton_eq. Qed.

Lemma collection_three_products :
  collection "product" three_products =
  [stored 0 margherita; stored 1 sushi; stored 2 tap_water].
Proof. unfold collection, three_products. simpl db_colls. by rewrite lookup_singleton_eq. Qed.

Lemma conforming_three_products : Forall conforming (collection "product" three_products).
Proof.
  rewrite collection_three_products.
  repeat apply List.Forall_cons; try apply List.Forall_nil; apply conforming_stored.
  - apply valid_margherita.
  - apply valid_sushi.
  - apply valid_tap_water.
Qed.

Lemma Forall_take {A} (P : A → Prop) (n : nat) (l : list A) :
  Forall P l → Forall P (take n l).
Proof.
  intros Hl. apply Forall_forall. intros x Hx.
  rewrite Forall_forall in Hl. apply Hl. by apply elem_of_take in Hx as (i & Hx & _); eapply list_elem_of_lookup_2.
Qed.

Lemma Forall_List_filter {A} (P : A → Prop) (f : A → bool) (l : list A) :
  Forall P l → Forall P (List.filter f l).
Proof.
  intros Hl. apply Forall_forall. intros x Hx.
  rewrite Forall_forall in Hl. apply Hl.
  apply list_elem_of_In. apply list_elem_of_In in Hx.
  by apply filter_In in Hx as [? _].
Qed.

(** ** The empty category parameter *)

(** C10. With [category] the empty text the filter holds no condition on
    the category, and the request is answered, from every state of the
    store and handle, as the request without [category] is.  On a store
    in order and with no [search], the handler returns the first
    [limit] records of the collection, normalized, whatever their
    category; when these validate against the response model, the
    request is answered with status 200 and one record for each, which
    has the category of the stored record ([None] for a record that has
    none). *)
Theorem empty_category_is_no_category :
  (∀ search, filter_dict (Some "") search = filter_dict None search) ∧
  (∀ search v, FieldEq "category" v ∉ filter_dict (Some "") search) ∧
  (∀ search limit db,
     GET_api_products (Some "") search limit db = GET_api_products None search limit db) ∧
  (∀ n (s : Database),
     db_faults s = [] →
     fst (list_products (Some "") None n (Some s)) =
     Return (normalize <$> take (Z.to_nat n) (collection "product" s))) ∧
  (∀ limit n (s : Database),
     Query_limit limit = Some n → db_faults s = [] →
     Forall conforming (take (Z.to_nat n) (collection "product" s)) →
     fst (GET_api_products (Some "") None limit (Some s)) =
     Response 200
       (ProductResponse_body <$>
          (normalize <$> take (Z.to_nat n) (collection "product" s)))) ∧
  (∀ d : document,
     ProductResponse_body (normalize d) !! "category" =
     Some (default VNone (d !! "category"))).
Proof.
  split_and!.
  - done.
  - intros search v. unfold filter_dict. simpl.
    destruct (given search); intros H; repeat (apply elem_of_cons in H as [H|H]; [discriminate|]); by apply elem_of_nil in H.
  - done.
  - intros n s Hs. rewrite list_products_in_order by done.
    change (filter_dict (Some "") None) with (@nil cond).
    by rewrite filter_meets_nil.
  - intros limit n s Hq Hs Hc.
    rewrite (GET_api_products_in_order _ _ _ n); try done;
      change (filter_dict (Some "") None) with (@nil cond);
      by rewrite filter_meets_nil.
  - intros d.
    destruct (ProductResponse_body_lookup (normalize d)) as (_ & _ & _ & -> & _).
    by rewrite normalize_lookup_other.
Qed.

(** On the store [three_products], [category=] and [limit=2] give the first
    two products, a pizza and a sushi platter. *)
Lemma empty_category_is_no_category_witness :
  fst (GET_api_products (Some "") None (Some 2%Z) (Some three_products)) =
  Response 200
    (ProductResponse_body <$>
       (normalize <$> take 2 (collection "product" three_products))).
Proof.
  apply (proj1 (proj2 (proj2 (proj2 (proj2 empty_category_is_no_category))))
           (Some 2%Z) 2%Z three_products eq_refl eq_refl).
  apply Forall_take, conforming_three_products.
Defined.

(** ** The handle that was never set *)

(** C5. With the handle [db] at [None], the four routes that use the
    store answer with status 500 and the detail "Database not
    configured" (for [GET /api/products], on a request whose [limit] the
    framework accepts): an [HTTPException], which the framework answers,
    and not an exception it does not know; the handle is [None] after as
    before, and no store has received a command. *)
Theorem no_handle_no_service :
  (∀ category search limit n,
     Query_limit limit = Some n →
     GET_api_products category search limit None =
     (ErrorResponse 500 "Database not configured", None) ∧
     list_products category search n None =
     (Raise (HTTPException 500 "Database not configured"), None)) ∧
  (∀ product,
     POST_api_products product None =
     (ErrorResponse 500 "Database not configured", None)) ∧
  GET_api_categories None = (ErrorResponse 500 "Database not configured", None) ∧
  POST_api_seed None = (ErrorResponse 500 "Database not configured", None).
Proof.
  split_and!; try done.
  intros category search limit n Hq. unfold GET_api_products. by rewrite Hq.
Qed.

(** A request for pizzas with basil, twenty at most, without handle. *)
Lemma no_handle_no_service_witness :
  GET_api_products (Some "Pizza") (Some "basil") (Some 20%Z) None =
  (ErrorResponse 500 "Database not configured", None).
Proof.
  exact (proj1 (proj1 no_handle_no_service (Some "Pizza") (Some "basil")
                  (Some 20%Z) 20%Z eq_refl)).
Defined.

(** ** The limit *)

Lemma Query_limit_Some (N n : Z) :
  Query_limit (Some N) = Some n ↔ (1 ≤ N ≤ 200)%Z ∧ n = N.
Proof.
  unfold Query_limit.
  destruct (1 <=? N)%Z eqn:H1, (N <=? 200)%Z eqn:H2; simpl;
    (split; [intros [= <-]|intros [? ->]]); try done; try (split; [lia|done]); lia.
Qed.

(** C4. With [limit=N], [N] from 1 to 200: a request that is answered
    with a list is answered with at most [N] records, whatever the
    category and the search; the handler, whenever it returns, returns
    at most [N] records; on a store in order that takes the patterns of
    the filter the handler does return, and the request is answered
    with status 200 and as many records when those returned validate
    against the response model.  A request with [limit=N] and [N] below
    1 or above 200 is answered with status 422, a client error, and the
    store has received no command: handle, documents and journal are as
    before.  A request without [limit] that is answered with a list is
    answered with at most 100 records. *)
Theorem limit_is_enforced :
  (∀ N category search db st l db',
     (1 ≤ N ≤ 200)%Z →
     GET_api_products category search (Some N) db = (Response st l, db') →
     (Z.of_nat (length l) ≤ N)%Z) ∧
  (∀ N category search db l db',
     (1 ≤ N ≤ 200)%Z →
     list_products category search N db = (Return l, db') →
     (Z.of_nat (length l) ≤ N)%Z) ∧
  (∀ N category search (s : Database),
     (1 ≤ N ≤ 200)%Z → db_faults s = [] →
     refused_filter (db_regex s) (filter_dict category search) = None →
     ∃ l, fst (list_products category search N (Some s)) = Return l ∧
          (Z.of_nat (length l) ≤ N)%Z ∧
          (Forall (λ r, ProductResponse_check r = Pass) l →
           ∃ l', fst (GET_api_products category search (Some N) (Some s)) =
                   Response 200 l' ∧
                 length l' = length l)) ∧
  (∀ N category search db,
     ¬ (1 ≤ N ≤ 200)%Z →
     GET_api_products category search (Some N) db = (UnprocessableEntity, db) ∧
     status (fst (GET_api_products category search (Some N) db)) = Some 422%Z ∧
     (400 ≤ 422 < 500)%Z) ∧
  (∀ category search db st l db',
     GET_api_products category search None db = (Response st l, db') →
     (Z.of_nat (length l) ≤ 100)%Z).
Proof.
  split_and!.
  - intros N category search db st l db' HN H.
    apply GET_api_products_Response in H as (n & s & Hq & _ & _ & _ & _ & ->).
    apply Query_limit_Some in Hq as [_ ->].
    rewrite !length_fmap, length_take. lia.
  - intros N category search db l db' HN H.
    apply list_products_Return in H as (s & _ & _ & ->).
    rewrite length_fmap, length_take. lia.
  - intros N category search s HN Hs Hf.
    rewrite list_products_in_order by done. simpl.
    eexists; split_and!; [done| |].
    + rewrite length_fmap, length_take. lia.
    + intros Hp.
      rewrite (GET_api_products_unfold _ _ _ N) by by apply Query_limit_Some.
      rewrite list_products_in_order by done. simpl.
      rewrite response_model_pass by done.
      eexists; split; [done|]. by rewrite length_fmap.
  - intros N category search db HN.
    assert (Query_limit (Some N) = None) as Hq.
    { destruct (Query_limit (Some N)) as [n|] eqn:Hq; [|done].
      apply Query_limit_Some in Hq as [? _]. done. }
    unfold GET_api_products. rewrite Hq. simpl. split_and!; done.
  - intros category search db st l db' H.
    apply GET_api_products_Response in H as (n & s & [= <-] & _ & _ & _ & _ & ->).
    rewrite !length_fmap, length_take. lia.
Qed.

Lemma GET_three_products_star :
  GET_api_products None (Some "a*") (Some 2%Z) (Some three_products) =
  (Response 200 [ProductResponse_body (normalize (stored 0 margherita));
                 ProductResponse_body (normalize (stored 1 sushi))],
   Some (noted (Find "product") three_products)).
Proof.
  assert (take (Z.to_nat 2)
            (List.filter (meets (db_regex three_products) (filter_dict None (Some "a*")))
               (collection "product" three_products)) =
          [stored 0 margherita; stored 1 sushi]) as Hl.
  { rewrite collection_three_products.
    assert (meets (db_regex three_products) (filter_dict None (Some "a*"))
              (stored 0 margherita) = true) as H0 by by_evaluation.
    assert (meets (db_regex three_products) (filter_dict None (Some "a*"))
              (stored 1 sushi) = true) as H1 by by_evaluation.
    assert (meets (db_regex three_products) (filter_dict None (Some "a*"))
              (stored 2 tap_water) = true) as H2 by by_evaluation.
    unfold List.filter. by rewrite H0, H1, H2. }
  rewrite (GET_api_products_in_order _ _ _ 2%Z); [|done|done|done|].
  - by rewrite Hl.
  - rewrite Hl.
    repeat apply List.Forall_cons; try apply List.Forall_nil; apply conforming_stored.
    + apply valid_margherita.
    + apply valid_sushi.
Qed.

(** On the store [three_products], whose engine takes the pattern [a*]
    and finds it in every text: [search=a*&limit=2] is answered with the
    first two records; the handler returns at most two; and [limit=201]
    is refused and leaves the store as it is. *)
Lemma limit_is_enforced_witness :
  (Z.of_nat (length [ProductResponse_body (normalize (stored 0 margherita));
                     ProductResponse_body (normalize (stored 1 sushi))]) ≤ 2)%Z ∧
  (∃ l, fst (list_products None (Some "a*") 2 (Some three_products)) = Return l ∧
        (Z.of_nat (length l) ≤ 2)%Z ∧
        (Forall (λ r, ProductResponse_check r = Pass) l →
         ∃ l', fst (GET_api_products None (Some "a*") (Some 2%Z) (Some three_products)) =
                 Response 200 l' ∧
               length l' = length l)) ∧
  GET_api_products None None (Some 201%Z) (Some three_products) =
  (UnprocessableEntity, Some three_products).
Proof.
  destruct limit_is_enforced as (H1 & _ & H3 & H4 & _).
  split_and!.
  - apply (H1 2%Z None (Some "a*") (Some three_products) 200%Z _
             (Some (noted (Find "product") three_products))); [lia|].
    apply GET_three_products_star.
  - exact (H3 2%Z None (Some "a*") three_products ltac:(lia) eq_refl eq_refl).
  - exact (proj1 (H4 201%Z None None (Some three_products) ltac:(lia))).
Defined.

(** ** Patterns without metacharacter *)











(** ** The two conditions of the filter *)

Lemma given_text (c : string) : c ≠ "" → given (Some c) = Some c.
Proof.
  intros Hc. simpl. destruct (String.eqb_spec c ""); done.
Qed.

Lemma given_Some (o : option string) (c : string) :
  given o = Some c → o = Some c ∧ c ≠ "".
Proof.
  destruct o as [c'|]; [|done]. simpl.
  destruct (String.eqb_spec c' ""); [done|]. by intros [= <-].
Qed.

Lemma meets_app regex (f g : list cond) (d : document) :
  meets regex (f ++ g) d = meets regex f d && meets regex g d.
Proof. unfold meets. apply forallb_app. Qed.

Lemma meets_filter_dict regex category search (d : document) :
  meets regex (filter_dict category search) d =
  meets regex (filter_dict category None) d && meets regex (filter_dict None search) d.
Proof.
  unfold filter_dict. simpl. by rewrite app_nil_r, meets_app.
Qed.


Lemma meets_category_text regex (c : string) (d : document) :
  c ≠ "" →
  meets regex (filter_dict (Some c) None) d =
  bool_decide (d !! "category" = Some (VStr c)).
Proof.
  intros Hc. unfold filter_dict. rewrite given_text by done. simpl.
  by rewrite andb_true_r.
Qed.


(** The category asks nothing of the engine. *)
Lemma refused_filter_category regex category search :
  refused_filter regex (filter_dict category search) =
  refused_filter regex (filter_dict None search).
Proof. unfold filter_dict. by destruct (given category). Qed.


Lemma elem_of_List_filter {A} (P : A → bool) (l : list A) (x : A) :
  x ∈ List.filter P l ↔ x ∈ l ∧ P x = true.
Proof. rewrite !list_elem_of_In. apply filter_In. Qed.


(** A text field of an answered record is that of the record returned,
    and of the record stored. *)
Lemma body_text (r : document) (k t : string) :
  k = "title" ∨ k = "description" ∨ k = "category" →
  ProductResponse_body r !! k = Some (VStr t) ↔ r !! k = Some (VStr t).
Proof.
  destruct (ProductResponse_body_lookup r) as (H1 & H2 & _ & H4 & _).
  intros [->|[->| ->]]; [rewrite H1|rewrite H2|rewrite H4];
    (split; [|by intros ->]);
    match goal with |- context [r !! ?k] => by destruct (r !! k); intros [= ->] end.
Qed.

Lemma answered_text (d : document) (k t : string) :
  k = "title" ∨ k = "description" ∨ k = "category" →
  ProductResponse_body (normalize d) !! k = Some (VStr t) ↔ d !! k = Some (VStr t).
Proof.
  intros Hk. rewrite body_text by done.
  rewrite normalize_lookup_other; [done|by destruct Hk as [->|[->| ->]]..].
Qed.



(** C7. With [category=c], [c] not empty, every record of the answer,
    and every record the handler returns, has [c] in its field
    [category], whatever the search.  A record meets the filter built
    from [category] and [search] when it meets the filter built from
    [category] alone and the filter built from [search] alone; with
    both given the filter is the equality on [category] and the
    condition on [title] and [description].  On a store in order that
    takes the pattern of the search, the handler returns the first
    [limit] stored records that pass both, normalized, and when these
    validate against the response model the request is answered with
    status 200 and one record for each. *)
Theorem category_filter_is_exact :
  (∀ (c : string) search limit db st l db' (r : document),
     c ≠ "" →
     GET_api_products (Some c) search limit db = (Response st l, db') →
     r ∈ l → r !! "category" = Some (VStr c)) ∧
  (∀ (c : string) search n db l db' (r : document),
     c ≠ "" →
     list_products (Some c) search n db = (Return l, db') →
     r ∈ l → r !! "category" = Some (VStr c)) ∧
  (∀ regex category search (d : document),
     meets regex (filter_dict category search) d =
     meets regex (filter_dict category None) d &&
     meets regex (filter_dict None search) d) ∧
  (∀ c q : string,
     c ≠ "" → q ≠ "" →
     filter_dict (Some c) (Some q) = [FieldEq "category" (VStr c); search_cond q]) ∧
  (∀ (c : string) search n (s : Database),
     c ≠ "" → db_faults s = [] →
     refused_filter (db_regex s) (filter_dict None search) = None →
     fst (list_products (Some c) search n (Some s)) =
     Return
       (normalize <$> take (Z.to_nat n)
          (List.filter (λ d : document,
                          bool_decide (d !! "category" = Some (VStr c)) &&
                          meets (db_regex s) (filter_dict None search) d)
             (collection "product" s)))) ∧
  (∀ (c : string) search limit n (s : Database),
     c ≠ "" → Query_limit limit = Some n → db_faults s = [] →
     refused_filter (db_regex s) (filter_dict None search) = None →
     Forall conforming
       (take (Z.to_nat n)
          (List.filter (λ d : document,
                          bool_decide (d !! "category" = Some (VStr c)) &&
                          meets (db_regex s) (filter_dict None search) d)
             (collection "product" s))) →
     fst (GET_api_products (Some c) search limit (Some s)) =
     Response 200
       (ProductResponse_body <$>
          (normalize <$> take (Z.to_nat n)
             (List.filter (λ d : document,
                             bool_decide (d !! "category" = Some (VStr c)) &&
                             meets (db_regex s) (filter_dict None search) d)
                (collection "product" s))))).
Proof.
  assert (∀ regex (c : string) search (l : list document),
            c ≠ "" →
            List.filter (meets regex (filter_dict (Some c) search)) l =
            List.filter (λ d : document,
                           bool_decide (d !! "category" = Some (VStr c)) &&
                           meets regex (filter_dict None search) d) l) as Hfilter.
  { intros regex c search l Hc. apply filter_ext. intros d.
    by rewrite meets_filter_dict, meets_category_text. }
  assert (∀ regex (c : string) search n (l : list document) (d : document),
            c ≠ "" →
            d ∈ take n (List.filter (meets regex (filter_dict (Some c) search)) l) →
            d !! "category" = Some (VStr c)) as Hcat.
  { intros regex c search n l d Hc Hd.
    apply elem_of_take in Hd as (i & Hd & _).
    apply list_elem_of_lookup_2, elem_of_List_filter in Hd as [_ Hd].
    rewrite meets_filter_dict, andb_true_iff, meets_category_text in Hd by done.
    destruct Hd as [Hd _]. by apply bool_decide_eq_true in Hd. }
  split_and!.
  - intros c search limit db st l db' r Hc H Hr.
    apply GET_api_products_Response in H as (n & s & _ & _ & _ & _ & _ & ->).
    apply list_elem_of_fmap in Hr as (r' & -> & Hr).
    apply list_elem_of_fmap in Hr as (d & -> & Hd).
    apply answered_text; [by auto|]. by eapply Hcat.
  - intros c search n db l db' r Hc H Hr.
    apply list_products_Return in H as (s & _ & _ & ->).
    apply list_elem_of_fmap in Hr as (d & -> & Hd).
    rewrite normalize_lookup_other by done. by eapply Hcat.
  - apply meets_filter_dict.
  - intros c q Hc Hq. unfold filter_dict. by rewrite !given_text.
  - intros c search n s Hc Hs Hf.
    rewrite list_products_in_order; [|done|by rewrite refused_filter_category].
    simpl. by rewrite Hfilter.
  - intros c search limit n s Hc Hq Hs Hf Hp.
    rewrite (GET_api_products_in_order _ _ _ n);
      [|done|done|by rewrite refused_filter_category|by rewrite Hfilter].
    simpl. by rewrite Hfilter.
Qed.

Lemma pizza_shop_pepp :
  List.filter (meets (db_regex pizza_shop) (filter_dict (Some "Pizza") (Some "PEPP")))
    (collection "product" pizza_shop) = [stored 1 pepperoni].
Proof.
  rewrite collection_pizza_shop.
  assert (meets (db_regex pizza_shop) (filter_dict (Some "Pizza") (Some "PEPP"))
            (stored 0 margherita) = false) as H0 by by_evaluation.
  assert (meets (db_regex pizza_shop) (filter_dict (Some "Pizza") (Some "PEPP"))
            (stored 1 pepperoni) = true) as H1 by by_evaluation.
  unfold List.filter. by rewrite H0, H1.
Qed.

Lemma GET_pizza_pepp :
  GET_api_products (Some "Pizza") (Some "PEPP") None (Some pizza_shop) =
  (Response 200 [ProductResponse_body (normalize (stored 1 pepperoni))],
   Some (noted (Find "product") pizza_shop)).
Proof.
  rewrite (GET_api_products_in_order _ _ _ 100%Z); [|done|done|done|].
  - by rewrite pizza_shop_pepp.
  - rewrite pizza_shop_pepp. apply Forall_take, List.Forall_cons; [|apply List.Forall_nil].
    apply conforming_stored, valid_pepperoni.
Qed.

(** On the store [pizza_shop], [category=Pizza&search=PEPP] gives the
    Pepperoni record alone. *)
Lemma category_filter_is_exact_witness :
  ProductResponse_body (normalize (stored 1 pepperoni)) !! "category" =
    Some (VStr "Pizza") ∧
  fst (list_products (Some "Pizza") (Some "PEPP") 100 (Some pizza_shop)) =
  Return
    (normalize <$> take 100
       (List.filter (λ d : document,
                       bool_decide (d !! "category" = Some (VStr "Pizza")) &&
                       meets (db_regex pizza_shop) (filter_dict None (Some "PEPP")) d)
          (collection "product" pizza_shop))).
Proof.
  destruct category_filter_is_exact as (H1 & _ & _ & _ & H5 & _). split.
  - apply (H1 "Pizza" (Some "PEPP") None (Some pizza_shop) 200%Z
             [ProductResponse_body (normalize (stored 1 pepperoni))]
             (Some (noted (Find "product") pizza_shop)));
      [done|apply GET_pizza_pepp|apply list_elem_of_here].
  - exact (H5 "Pizza" (Some "PEPP") 100%Z pizza_shop ltac:(done) eq_refl eq_refl).
Defined.

(** ** Search *)






(** ** Insertion *)

Lemma insert_one_in_order c doc (s : Database) :
  db_faults s = [] →
  insert_one c doc s =
  (Return (VOid (db_next_oid s)), with_document c doc (noted (InsertOne c) s)).
Proof. intros Hs. unfold insert_one. by rewrite send_in_order. Qed.

Lemma collection_with_document c doc (s : Database) :
  collection c (with_document c doc s) =
  collection c s ++ [<["_id" := VOid (db_next_oid s)]> doc].
Proof. unfold collection at 1. simpl. by rewrite lookup_insert_eq. Qed.

Lemma collection_with_document_ne c c' doc (s : Database) :
  c ≠ c' → collection c' (with_document c doc s) = collection c' s.
Proof. intros Hc. unfold collection. simpl. by rewrite lookup_insert_ne. Qed.

Lemma create_document_in_order c p (s : Database) :
  db_faults s = [] →
  create_document c p s =
  (Return (oid_str (db_next_oid s)),
   with_document c (to_document p) (noted (InsertOne c) s)).
Proof.
  intros Hs. unfold create_document, bind. by rewrite insert_one_in_order.
Qed.

Lemma create_product_in_order p (s : Database) :
  db_faults s = [] →
  create_product p (Some s) =
  (Return {["id" := VStr (oid_str (db_next_oid s))]},
   Some (with_document "product" (to_document p) (noted (InsertOne "product") s))).
Proof.
  intros Hs. unfold create_product, require_db, run, try_except, bind.
  by rewrite create_document_in_order.
Qed.

Lemma after_create_in_order c (s : Database) p :
  db_faults s = [] → db_faults (after_create c s p) = [].
Proof. intros Hs. unfold after_create. simpl. by rewrite Hs. Qed.

Lemma collection_after_create c (s : Database) p :
  collection c (after_create c s p) = collection c s ++ [stored (db_next_oid s) p].
Proof. unfold after_create. by rewrite collection_with_document. Qed.

Lemma String_length_app (a b : string) :
  String.length (a +:+ b) = String.length a + String.length b.
Proof. induction a as [|c a IH]; simpl; by f_equal. Qed.

Lemma hex_digits_length (k : nat) (n : N) : String.length (hex_digits k n) = k.
Proof.
  revert n. induction k as [|k IH]; intros n; simpl; [done|].
  rewrite String_length_app, IH. simpl. lia.
Qed.

Lemma oid_str_not_empty (oid : N) : oid_str oid ≠ "".
Proof.
  intros H. pose proof (hex_digits_length 24 oid) as Hl.
  unfold oid_str in H. by rewrite H in Hl.
Qed.






(** ** Seeding *)

Lemma count_documents_in_order c (s : Database) :
  db_faults s = [] →
  count_documents c s =
  (Return (Z.of_nat (length (collection c s))), noted (CountDocuments c) s).
Proof. intros Hs. unfold count_documents. by rewrite send_in_order. Qed.

Lemma for_each_create_document c (l : list Product) (s : Database) :
  db_faults s = [] →
  for_each l (create_document c) s = (Return tt, fold_left (after_create c) l s).
Proof.
  revert s. induction l as [|p l IH]; intros s Hs; [done|].
  simpl. unfold bind at 1. rewrite create_document_in_order by done.
  rewrite IH; [done|]. by apply (after_create_in_order c s p).
Qed.

Lemma fold_left_after_create c (l : list Product) (s : Database) :
  db_faults (fold_left (after_create c) l s) = drop (length l) (db_faults s) ∧
  collection c (fold_left (after_create c) l s) =
    collection c s ++ stored_from (db_next_oid s) l.
Proof.
  revert s. induction l as [|p l IH]; intros s; simpl.
  { by rewrite app_nil_r. }
  destruct (IH (after_create c s p)) as [-> ->]. split.
  - unfold after_create. simpl. destruct (db_faults s); simpl; [by rewrite drop_nil|done].
  - rewrite collection_after_create. unfold stored. simpl.
    by rewrite <- app_assoc.
Qed.

Lemma stored_from_length oid (l : list Product) : length (stored_from oid l) = length l.
Proof. revert oid. induction l as [|p l IH]; intros oid; simpl; by f_equal. Qed.

Lemma bind_Return {S A B} (m : St S A) (k : A → St S B) (s s' : S) (a : A) :
  m s = (Return a, s') → bind m k s = k a s'.
Proof. intros H. unfold bind. by rewrite H. Qed.

Lemma bind_Raise {S A B} (m : St S A) (k : A → St S B) (s s' : S) (e : exn) :
  m s = (Raise e, s') → bind m k s = (Raise e, s').
Proof. intros H. unfold bind. by rewrite H. Qed.

Lemma try_except_Return {S A} (m : St S A) (h : exn → St S A) (s s' : S) (a : A) :
  m s = (Return a, s') → try_except m h s = (Return a, s').
Proof. intros H. unfold try_except. by rewrite H. Qed.

Lemma try_except_Raise {S A} (m : St S A) (h : exn → St S A) (s s' : S) (e : exn) :
  m s = (Raise e, s') → try_except m h s = h e s'.
Proof. intros H. unfold try_except. by rewrite H. Qed.

Lemma seed_products_empty (s : Database) :
  db_faults s = [] → collection "product" s = [] →
  seed_products (Some s) =
  (Return (seed_report 8 8),
   Some (noted (CountDocuments "product")
           (fold_left (after_create "product") sample_products
              (noted (CountDocuments "product") s)))).
Proof.
  intros Hs He. unfold seed_products, require_db, run.
  erewrite try_except_Return; [done|].
  erewrite bind_Return by (by apply count_documents_in_order).
  rewrite He. change (Z.of_nat (length []) =? 0)%Z with true. cbv iota.
  erewrite bind_Return.
  2:{ erewrite bind_Return
        by (apply for_each_create_document; by apply noted_in_order).
      done. }
  erewrite bind_Return.
  2:{ apply count_documents_in_order.
      rewrite (proj1 (fold_left_after_create _ _ _)), db_faults_noted, Hs.
      apply drop_nil. }
  rewrite (proj2 (fold_left_after_create _ _ _)).
  change (collection "product" (noted (CountDocuments "product") s))
    with (collection "product" s).
  by rewrite He.
Qed.

Lemma seed_products_not_empty (s : Database) :
  db_faults s = [] → collection "product" s ≠ [] →
  seed_products (Some s) =
  (Return (seed_report 0 (Z.of_nat (length (collection "product" s)))),
   Some (noted (CountDocuments "product") (noted (CountDocuments "product") s))).
Proof.
  intros Hs He. unfold seed_products, require_db, run.
  erewrite try_except_Return; [done|].
  erewrite bind_Return by (by apply count_documents_in_order).
  assert ((Z.of_nat (length (collection "product" s)) =? 0)%Z = false) as ->.
  { apply Z.eqb_neq. destruct (collection "product" s); [done|]. simpl. lia. }
  erewrite bind_Return by done.
  erewrite bind_Return
    by (apply count_documents_in_order; by apply noted_in_order).
  done.
Qed.

(** The dictionary [seed_products] returns. *)
Lemma seed_report_lookup (inserted total : Z) :
  seed_report inserted total !! "inserted" = Some (VInt inserted) ∧
  seed_report inserted total !! "total" = Some (VInt total) ∧
  dom (seed_report inserted total) = {["inserted"; "total"]}.
Proof.
  unfold seed_report. split_and!; [by simplify_map_eq..|].
  rewrite !dom_insert_L, dom_empty_L. set_solver.
Qed.

(** C3.  On a store in order: when the product collection is empty,
    [POST /api/seed] answers with status 200 and a dictionary whose
    entries are [inserted], 8, and [total], 8, and leaves in the
    collection the eight sample products, under the next eight
    identifiers; when it is not empty, the call answers with [inserted]
    at 0 and [total] at the number of records, and leaves every
    collection as it was; and of two calls in a row, the second answers
    with [inserted] at 0 and with the [total] of the first, which is the
    number of records the first one left, and leaves every collection as
    the first one left it. *)
Theorem seeding_is_idempotent :
  ∀ s : Database,
    db_faults s = [] →
    (collection "product" s = [] →
     ∃ (r : document) (s' : Database),
       POST_api_seed (Some s) = (Response 200 r, Some s') ∧
       r !! "inserted" = Some (VInt 8) ∧
       r !! "total" = Some (VInt 8) ∧
       dom r = {["inserted"; "total"]} ∧
       collection "product" s' = stored_from (db_next_oid s) sample_products ∧
       length (collection "product" s') = 8) ∧
    (collection "product" s ≠ [] →
     ∃ (r : document) (s' : Database),
       POST_api_seed (Some s) = (Response 200 r, Some s') ∧
       r !! "inserted" = Some (VInt 0) ∧
       r !! "total" = Some (VInt (Z.of_nat (length (collection "product" s)))) ∧
       dom r = {["inserted"; "total"]} ∧
       db_colls s' = db_colls s) ∧
    (∃ (r1 r2 : document) (total : Z) (s1 s2 : Database),
       POST_api_seed (Some s) = (Response 200 r1, Some s1) ∧
       r1 !! "total" = Some (VInt total) ∧
       total = Z.of_nat (length (collection "product" s1)) ∧
       POST_api_seed (Some s1) = (Response 200 r2, Some s2) ∧
       r2 !! "inserted" = Some (VInt 0) ∧
       r2 !! "total" = Some (VInt total) ∧
       db_colls s2 = db_colls s1).
Proof.
  intros s Hs.
  assert (collection "product" s = [] →
          ∃ s' : Database,
            POST_api_seed (Some s) = (Response 200 (seed_report 8 8), Some s') ∧
            collection "product" s' = stored_from (db_next_oid s) sample_products ∧
            length (collection "product" s') = 8 ∧ db_faults s' = []) as Hempty.
  { intros He. eexists. unfold POST_api_seed, route.
    rewrite seed_products_empty by done. split; [done|].
    rewrite collection_noted, (proj2 (fold_left_after_create _ _ _)).
    rewrite collection_noted, He, app_nil_l. split_and!; [done|by rewrite stored_from_length|].
    rewrite db_faults_noted, (proj1 (fold_left_after_create _ _ _)), db_faults_noted, Hs.
    done. }
  assert (∀ t : Database, db_faults t = [] → collection "product" t ≠ [] →
          ∃ t' : Database,
            POST_api_seed (Some t) =
              (Response 200 (seed_report 0 (Z.of_nat (length (collection "product" t)))),
               Some t') ∧
            db_colls t' = db_colls t ∧ db_faults t' = []) as Hfull.
  { intros t Ht He. eexists. unfold POST_api_seed, route.
    rewrite seed_products_not_empty by done. split_and!; [done..|].
    by rewrite !db_faults_noted, Ht. }
  split_and!.
  - intros He. destruct (Hempty He) as (s' & ? & ? & ? & _).
    destruct (seed_report_lookup 8 8) as (? & ? & ?).
    exists (seed_report 8 8), s'. done.
  - intros He. destruct (Hfull s Hs He) as (s' & ? & ? & _).
    destruct (seed_report_lookup 0 (Z.of_nat (length (collection "product" s))))
      as (? & ? & ?).
    eexists _, s'. done.
  - destruct (collection "product" s) as [|d l] eqn:He.
    + destruct Hempty as (s1 & H1 & _ & Hl & Hs1); [done|].
      destruct (Hfull s1 Hs1) as (s2 & H2 & Hc & _).
      { intros Hn. by rewrite Hn in Hl. }
      rewrite Hl in H2.
      destruct (seed_report_lookup 8 8) as (_ & ? & _).
      destruct (seed_report_lookup 0 8) as (? & ? & _).
      exists (seed_report 8 8), (seed_report 0 8), 8%Z, s1, s2. by rewrite Hl.
    + destruct (Hfull s Hs) as (s1 & H1 & Hc1 & Hs1); [by rewrite He|].
      assert (collection "product" s1 = collection "product" s) as Hcs.
      { unfold collection. by rewrite Hc1. }
      destruct (Hfull s1 Hs1) as (s2 & H2 & Hc2 & _); [by rewrite Hcs, He|].
      rewrite Hcs in H2. rewrite He in H1, H2.
      destruct (seed_report_lookup 0 (Z.of_nat (length (d :: l)))) as (? & ? & _).
      eexists _, _, (Z.of_nat (length (d :: l))), s1, s2. by rewrite Hcs, He.
Qed.

(** Seeding the empty store, and a store that holds three products. *)
Lemma seeding_is_idempotent_witness :
  (∃ (r : document) (s' : Database),
     POST_api_seed (Some empty_shop) = (Response 200 r, Some s') ∧
     r !! "inserted" = Some (VInt 8) ∧
     r !! "total" = Some (VInt 8) ∧
     dom r = {["inserted"; "total"]} ∧
     collection "product" s' = stored_from 0 sample_products ∧
     length (collection "product" s') = 8) ∧
  (∃ (r : document) (s' : Database),
     POST_api_seed (Some three_products) = (Response 200 r, Some s') ∧
     r !! "inserted" = Some (VInt 0) ∧
     r !! "total" = Some (VInt (Z.of_nat (length (collection "product" three_products)))) ∧
     dom r = {["inserted"; "total"]} ∧
     db_colls s' = db_colls three_products).
Proof.
  split.
  - apply (proj1 (seeding_is_idempotent empty_shop eq_refl)). reflexivity.
  - apply (proj1 (proj2 (seeding_is_idempotent three_products eq_refl))).
    by rewrite collection_three_products.
Defined.

(** ** Categories *)

Lemma string_le_nil (b : string) : string_le "" b.
Proof. unfold string_le, String.leb. by destruct b. Qed.

Lemma string_le_cons (c1 c2 : ascii) (s1 s2 : string) :
  string_le (String c1 s1) (String c2 s2) ↔
  (N_of_ascii c1 < N_of_ascii c2)%N ∨ (c1 = c2 ∧ string_le s1 s2).
Proof.
  unfold string_le, String.leb. simpl. unfold Ascii.compare.
  destruct (N.compare_spec (N_of_ascii c1) (N_of_ascii c2)) as [He|Hl|Hg].
  - assert (c1 = c2) as ->.
    { by rewrite <- (ascii_N_embedding c1), <- (ascii_N_embedding c2), He. }
    split; [by right|]. intros [?|[_ ?]]; [lia|done].
  - split; [by left|done].
  - split; [done|]. intros [?|[-> _]]; lia.
Qed.

#[local] Instance string_le_trans : Transitive string_le.
Proof.
  intros a. induction a as [|c1 a IH]; intros b c Hab Hbc.
  { apply string_le_nil. }
  destruct b as [|c2 b]; [done|]. destruct c as [|c3 c]; [done|].
  apply string_le_cons in Hab, Hbc. apply string_le_cons.
  destruct Hab as [?|[-> ?]], Hbc as [?|[-> ?]]; eauto with lia.
Qed.

#[local] Instance string_le_total : Total string_le.
Proof. intros a b. apply String.leb_total. Qed.

Lemma remove_dups_text_or_none (coll : list document) (v : value) :
  Forall category_is_text coll →
  v ∈ omap (λ d : document, d !! "category") coll →
  v = VNone ∨ ∃ c, v = VStr c.
Proof.
  intros Hc Hv. apply list_elem_of_omap in Hv as (d & Hd & Hv).
  rewrite Forall_forall in Hc. specialize (Hc d Hd).
  unfold category_is_text in Hc. rewrite Hv in Hc.
  destruct v; try done; eauto.
Qed.

Lemma py_sorted_texts (l : list string) :
  py_sorted (VStr <$> l) = Some (VStr <$> merge_sort string_le l).
Proof.
  destruct l as [|a [|b l]]; [done..|].
  unfold py_sorted. rewrite !fmap_cons.
  change (VStr a :: VStr b :: (VStr <$> l)) with (VStr <$> a :: b :: l).
  by rewrite mapM_fmap_Some.
Qed.

Lemma truthy_texts (l : list value) :
  (∀ v, v ∈ l → v = VNone ∨ ∃ c, v = VStr c) →
  ∃ texts : list string,
    List.filter truthy l = VStr <$> texts ∧
    ∀ c, c ∈ texts ↔ c ≠ "" ∧ VStr c ∈ l.
Proof.
  induction l as [|v l IH]; intros Hl.
  { exists []. split; [done|]. intros c. split; [by intros ?%elem_of_nil|].
    by intros [_ ?%elem_of_nil]. }
  destruct IH as (texts & Hf & Ht).
  { intros w Hw. apply Hl. by right. }
  destruct (Hl v) as [->|[c ->]]; [by left|..].
  - exists texts. split; [done|]. intros c. rewrite Ht, elem_of_cons. naive_solver.
  - simpl. destruct (String.eqb_spec c "") as [->|Hc]; simpl.
    + exists texts. split; [done|]. intros c. rewrite Ht, elem_of_cons. naive_solver.
    + exists (c :: texts). split; [by rewrite Hf|].
      intros c'. rewrite !elem_of_cons, Ht. naive_solver.
Qed.

(** A list of texts passes [List[str]] and is answered as it is. *)
Lemma response_model_texts (l : list string) :
  response_model str_check id (VStr <$> l) = Response 200 (VStr <$> l).
Proof.
  rewrite response_model_pass.
  - by rewrite list_fmap_id.
  - apply Forall_fmap, Forall_forall. done.
Qed.

Lemma list_categories_in_order (s : Database) :
  db_faults s = [] →
  list_categories (Some s) =
  (match py_sorted (List.filter truthy
            (remove_dups (omap (λ d : document, d !! "category")
                            (collection "product" s)))) with
   | Some r => Return r
   | None => OutOfModel
   end, Some (noted (Distinct "product" "category") s)).
Proof.
  intros Hs. unfold list_categories, require_db, run, try_except, bind, distinct.
  rewrite send_in_order by done. rewrite collection_noted. unfold sorted.
  by destruct (py_sorted _).
Qed.

(** C6.  On a store in order whose products have a text, [None] or
    nothing as category, [GET /api/categories] answers with a list of
    texts that has no text twice, does not have the empty text, is in
    ascending order, character by character, and has exactly the texts
    that are not empty and are the category of a stored product. *)
Theorem categories_are_sorted_and_distinct :
  ∀ s : Database,
    db_faults s = [] →
    Forall category_is_text (collection "product" s) →
    ∃ l : list string,
      GET_api_categories (Some s) =
        (Response 200 (VStr <$> l), Some (noted (Distinct "product" "category") s)) ∧
      NoDup l ∧
      ("" ∉ l) ∧
      StronglySorted string_le l ∧
      ∀ c : string,
        c ∈ l ↔ c ≠ "" ∧ ∃ d : document,
                  d ∈ collection "product" s ∧ d !! "category" = Some (VStr c).
Proof.
  intros s Hs Hc.
  set (cats := remove_dups (omap (λ d : document, d !! "category") (collection "product" s))).
  destruct (truthy_texts cats) as (texts & Hf & Ht).
  { intros v Hv. unfold cats in Hv. rewrite elem_of_remove_dups in Hv.
    by apply (remove_dups_text_or_none (collection "product" s)). }
  assert (NoDup texts) as Hnd.
  { apply (NoDup_fmap_1 VStr). rewrite <- Hf.
    apply NoDup_ListNoDup, List.NoDup_filter, NoDup_ListNoDup, NoDup_remove_dups. }
  exists (merge_sort string_le texts). split_and!.
  - unfold GET_api_categories, route_with_model.
    rewrite list_categories_in_order by done. fold cats.
    by rewrite Hf, py_sorted_texts, response_model_texts.
  - by rewrite merge_sort_Permutation.
  - rewrite merge_sort_Permutation, Ht. naive_solver.
  - apply StronglySorted_merge_sort; apply _.
  - intros c. rewrite merge_sort_Permutation, Ht. unfold cats.
    rewrite elem_of_remove_dups, list_elem_of_omap. naive_solver.
Qed.

(** The categories of the store [three_products]. *)
Lemma categories_are_sorted_and_distinct_witness :
  ∃ l : list string,
    GET_api_categories (Some three_products) =
      (Response 200 (VStr <$> l),
       Some (noted (Distinct "product" "category") three_products)) ∧
    NoDup l ∧
    ("" ∉ l) ∧
    StronglySorted string_le l ∧
    ∀ c : string,
      c ∈ l ↔ c ≠ "" ∧ ∃ d : document,
                d ∈ collection "product" three_products ∧
                d !! "category" = Some (VStr c).
Proof.
  apply (categories_are_sorted_and_distinct three_products).
  - reflexivity.
  - unfold three_products, collection. simpl db_colls. rewrite lookup_singleton_eq.
    simpl. repeat constructor.
Defined.

(** ** The diagnostic route *)

Lemma take_chars_all (n : nat) (s : string) :
  count_chars s ≤ n → take_chars n s = s.
Proof.
  revert n. induction s as [|c s IH]; intros n Hn; [done|].
  simpl in *. destruct (is_continuation c).
  - f_equal. apply IH. lia.
  - destruct n as [|n]; [lia|]. f_equal. apply IH. lia.
Qed.

Lemma take_chars_prefix (n : nat) (s : string) :
  ∃ rest : string, s = take_chars n s +:+ rest.
Proof.
  revert n. induction s as [|c s IH]; intros n; [by exists ""|].
  simpl. destruct (is_continuation c).
  - destruct (IH n) as [rest Hr]. exists rest.
    change (String c s = String c (take_chars n s +:+ rest)). by f_equal.
  - destruct n as [|n]; [by eexists|].
    destruct (IH n) as [rest Hr]. exists rest.
    change (String c s = String c (take_chars n s +:+ rest)). by f_equal.
Qed.

Lemma take_chars_count (n : nat) (s : string) :
  count_chars (take_chars n s) = n `min` count_chars s.
Proof.
  revert n. induction s as [|c s IH]; intros n; simpl; [lia|].
  destruct (is_continuation c) eqn:Hc; simpl.
  - by rewrite Hc, IH.
  - destruct n as [|n]; [done|]. simpl. rewrite Hc, IH. lia.
Qed.

Lemma test_database_no_handle environ :
  test_database environ None =
  (Return (environment_entries environ
             (<["database" := JStr "⚠️  Available but not initialized"]> initial_response)),
   None).
Proof. reflexivity. Qed.

Lemma test_database_in_order environ (s : Database) :
  (∀ text rest, db_faults s ≠ Some text :: rest) →
  test_database environ (Some s) =
  (Return (environment_entries environ
             (<["database" := JStr "✅ Connected & Working"]>
             (<["collections" := JList (take 10 (map_to_list (db_colls s)).*1)]>
             (connected_entries s initial_response)))),
   Some (noted ListCollectionNames s)).
Proof.
  destruct s as [name colls next faults regex journal]. simpl. intros Hs.
  unfold test_database, test_database_body, bind, try_except, through_db,
    list_collection_names, send. simpl.
  destruct faults as [|[text|] rest]; [done| |done]. by destruct (Hs text rest).
Qed.

Lemma test_database_out_of_order environ (s : Database) (text : string) rest :
  db_faults s = Some text :: rest →
  test_database environ (Some s) =
  (Return (environment_entries environ
             (<["database" := JStr ("⚠️  Connected but Error: " +:+
                                     take_chars 50 text)]>
             (connected_entries s initial_response))),
   Some (noted ListCollectionNames s)).
Proof.
  destruct s as [name colls next faults regex journal]. simpl. by intros ->.
Qed.

Lemma dom_initial_response : dom initial_response = report_keys.
Proof.
  unfold initial_response, report_keys. rewrite !dom_insert_L, dom_empty_L.
  set_solver.
Qed.

Lemma dom_report environ (s : Database) (x y : jval) :
  dom (environment_entries environ
         (<["database" := x]> (<["collections" := y]>
            (connected_entries s initial_response)))) = report_keys.
Proof.
  unfold environment_entries, connected_entries.
  rewrite !dom_insert_L, dom_initial_response. unfold report_keys. set_solver.
Qed.

(** C9.  [GET /test] answers 200, whatever the environment, the handle
    and the state of the store (which receives one command when there
    is a handle): a dictionary with the keys [backend], [database],
    [database_url], [database_name], [connection_status] and
    [collections] and no other, in which [collections] is a list of at
    most ten names and [database] is a text.  When the store raises,
    the text of [database] is "Connected but Error: " followed by the
    text of the exception as far as its 50th character: a beginning of
    that text, of 50 characters or of all there are, and the whole text
    when it has no more than 50. *)
Theorem test_never_raises :
  ∀ (environ : gmap string string) (db : option Database),
    ∃ r : gmap string jval,
      GET_test environ db = (Response 200 r, noted ListCollectionNames <$> db) ∧
      dom r = report_keys ∧
      (∃ names : list string,
         r !! "collections" = Some (JList names) ∧ length names ≤ 10) ∧
      (∃ report : string, r !! "database" = Some (JStr report)) ∧
      (∀ (s : Database) (text : string) rest,
         db = Some s → db_faults s = Some text :: rest →
         ∃ shown : string,
           r !! "database" = Some (JStr ("⚠️  Connected but Error: " +:+ shown)) ∧
           shown = take_chars 50 text ∧
           (∃ cut : string, text = shown +:+ cut) ∧
           count_chars shown = 50 `min` count_chars text ∧
           (count_chars text ≤ 50 → shown = text)).
Proof.
  intros environ [s|].
  - destruct (db_faults s) as [|[text|] rest] eqn:Hs.
    2:{ eexists. unfold GET_test, route.
        rewrite (test_database_out_of_order environ s text rest Hs). split_and!.
        - done.
        - rewrite <- (dom_report environ s
                       (JStr ("⚠️  Connected but Error: " +:+ take_chars 50 text))
                       (JList [])).
          unfold environment_entries, connected_entries, initial_response.
          rewrite !dom_insert_L. set_solver.
        - exists []. split; [|simpl; lia].
          unfold environment_entries, connected_entries, initial_response.
          by simplify_map_eq.
        - eexists. unfold environment_entries. by simplify_map_eq.
        - intros s' text' rest' [= <-] Hs'. rewrite Hs in Hs'. injection Hs' as <- <-.
          exists (take_chars 50 text). split_and!.
          + unfold environment_entries. by simplify_map_eq.
          + done.
          + apply take_chars_prefix.
          + apply take_chars_count.
          + apply take_chars_all. }
    all: eexists; unfold GET_test, route;
      rewrite (test_database_in_order environ s) by (by rewrite Hs);
      (split_and!;
       [done
       |apply dom_report
       |eexists; split; [unfold environment_entries; by simplify_map_eq
                        |rewrite length_take; lia]
       |eexists; unfold environment_entries; by simplify_map_eq
       |intros s' text' rest' [= <-] Hs'; by rewrite Hs in Hs']).
  - eexists. unfold GET_test, route. rewrite test_database_no_handle. split_and!.
    + done.
    + unfold environment_entries. rewrite !dom_insert_L, dom_initial_response.
      unfold report_keys. set_solver.
    + exists []. split; [|simpl; lia].
      unfold environment_entries, initial_response. by simplify_map_eq.
    + eexists. unfold environment_entries. by simplify_map_eq.
    + done.
Qed.

(** The report on the store [unreachable_shop], whose first command
    raises with a text of 98 characters. *)
Lemma test_never_raises_witness :
  ∃ r : gmap string jval,
    GET_test ∅ (Some unreachable_shop) =
      (Response 200 r, Some (noted ListCollectionNames unreachable_shop)) ∧
    dom r = report_keys ∧
    (∃ names : list string,
       r !! "collections" = Some (JList names) ∧ length names ≤ 10) ∧
    (∃ shown : string,
       r !! "database" = Some (JStr ("⚠️  Connected but Error: " +:+ shown)) ∧
       shown = take_chars 50 refused ∧
       (∃ cut : string, refused = shown +:+ cut) ∧
       count_chars shown = 50 `min` count_chars refused ∧
       (count_chars refused ≤ 50 → shown = refused)).
Proof.
  destruct (test_never_raises ∅ (Some unreachable_shop)) as (r & H1 & H2 & H3 & _ & H5).
  exists r. split_and!; [exact H1|exact H2|exact H3|].
  exact (H5 unreachable_shop refused [] eq_refl eq_refl).
Defined.

(** The Margherita product as stored under identifier 0, normalized. *)
Lemma normalization_frame_witness :
  normalize (stored 0 margherita) !! "price" = Some (VFloat "9.99") ∧
  normalize (stored 0 margherita) !! "_id" = None ∧
  normalize (stored 0 margherita) !! "id" = Some (VStr "000000000000000000000000").
Proof.
  destruct normalization_frame as (_ & H).
  destruct (H (stored 0 margherita)) as (H1 & H2 & _ & _ & H5). split_and!.
  - rewrite H5 by done. unfold stored, to_document, margherita. by simplify_map_eq.
  - exact H1.
  - rewrite H2. unfold stored. by simplify_map_eq.
Defined.

(** * Further properties of the handlers *)

(** ** The empty search parameter *)

(** X1.  With [search] the empty text, [list_products] adds no
    condition on [title] and [description] ([if search:] is false), and
    the request is answered, from every state of the store and handle
    and with any [category] and [limit], as the request without [search]
    is. *)
Theorem empty_search_is_no_search :
  (∀ category, filter_dict category (Some "") = filter_dict category None) ∧
  (∀ category alts, AnyOf alts ∉ filter_dict category (Some "")) ∧
  (∀ category limit db,
     GET_api_products category (Some "") limit db = GET_api_products category None limit db).
Proof.
  split_and!.
  - done.
  - intros category alts. unfold filter_dict. simpl. rewrite app_nil_r.
    destruct (given category); intros H;
      repeat (apply elem_of_cons in H as [H|H]; [discriminate|]);
      by apply elem_of_nil in H.
  - done.
Qed.

(** On the store [pizza_shop], [category=Pizza&search=] is answered as
    [category=Pizza]. *)
Lemma empty_search_is_no_search_witness :
  GET_api_products (Some "Pizza") (Some "") None (Some pizza_shop) =
  GET_api_products (Some "Pizza") None None (Some pizza_shop).
Proof.
  exact (proj2 (proj2 empty_search_is_no_search) (Some "Pizza") None (Some pizza_shop)).
Defined.

(** ** Exceptions of the store *)

(** X2.  [list_products] has no [try]: when the store raises, the
    exception leaves the handler as it is, with its text, and is not
    turned into an [HTTPException]; the framework answers 500 without
    that text.  The store has received the one query and holds the
    documents it held. *)
Theorem list_products_lets_store_errors_through :
  ∀ category search limit n (s : Database) (text : string) rest,
    Query_limit limit = Some n → db_faults s = Some text :: rest →
    list_products category search n (Some s) =
      (Raise (Exception text), Some (noted (Find "product") s)) ∧
    GET_api_products category search limit (Some s) =
      (InternalServerError, Some (noted (Find "product") s)) ∧
    db_colls (noted (Find "product") s) = db_colls s.
Proof.
  intros category search limit n s text rest Hq Hs.
  assert (list_products category search n (Some s) =
          (Raise (Exception text), Some (noted (Find "product") s))) as H.
  { rewrite list_products_unfold. unfold get_documents, find.
    by rewrite (send_out_of_order _ _ s text rest). }
  split_and!; [done| |done].
  rewrite (GET_api_products_unfold _ _ _ n) by done. by rewrite H.
Qed.

(** A search for pizzas on the store that cannot be reached. *)
Lemma list_products_lets_store_errors_through_witness :
  GET_api_products (Some "Pizza") None (Some 10%Z) (Some unreachable_shop) =
  (InternalServerError, Some (noted (Find "product") unreachable_shop)).
Proof.
  exact (proj1 (proj2 (list_products_lets_store_errors_through
                         (Some "Pizza") None (Some 10%Z) 10%Z unreachable_shop refused []
                         eq_refl eq_refl))).
Defined.

(** A command the store takes without raising, with more to come. *)
Lemma send_skip {A} c (body : M A) (s : Database) rest :
  db_faults s = None :: rest → send c body s = body (noted c s).
Proof. intros Hs. unfold send. by rewrite Hs. Qed.

Lemma count_documents_skip c (s : Database) rest :
  db_faults s = None :: rest →
  count_documents c s =
  (Return (Z.of_nat (length (collection c s))), noted (CountDocuments c) s).
Proof. intros Hs. unfold count_documents. by rewrite (send_skip _ _ s rest). Qed.

Lemma create_document_skip c p (s : Database) rest :
  db_faults s = None :: rest →
  create_document c p s = (Return (oid_str (db_next_oid s)), after_create c s p).
Proof.
  intros Hs. unfold create_document, bind, insert_one.
  by rewrite (send_skip _ _ s rest).
Qed.

Lemma create_document_out_of_order c p (s : Database) text rest :
  db_faults s = Some text :: rest →
  create_document c p s = (Raise (Exception text), noted (InsertOne c) s).
Proof.
  intros Hs. unfold create_document, bind, insert_one.
  by rewrite (send_out_of_order _ _ s text rest).
Qed.

Lemma db_faults_after_create c (s : Database) p :
  db_faults (after_create c s p) = tail (db_faults s).
Proof. done. Qed.

(** The loop of [seed_products] on a store that takes the first [j]
    insertions and raises at the next: the exception leaves the loop,
    and the [j] products inserted stay. *)
Lemma for_each_create_document_fault c (l : list Product) (j : nat) (s : Database)
    text rest :
  j < length l →
  db_faults s = replicate j None ++ Some text :: rest →
  for_each l (create_document c) s =
  (Raise (Exception text), noted (InsertOne c) (fold_left (after_create c) (take j l) s)).
Proof.
  revert j s. induction l as [|p l IH]; intros j s Hj Hs; [simpl in Hj; lia|].
  destruct j as [|j].
  - simpl. unfold bind. by rewrite (create_document_out_of_order c p s text rest).
  - simpl in Hs. simpl for_each. unfold bind at 1.
    rewrite (create_document_skip c p s _ Hs).
    rewrite (IH j); [done|simpl in Hj; lia|].
    by rewrite db_faults_after_create, Hs.
Qed.

Lemma for_each_create_document_skip c (l : list Product) (s : Database) rest :
  db_faults s = replicate (length l) None ++ rest →
  for_each l (create_document c) s = (Return tt, fold_left (after_create c) l s).
Proof.
  revert s. induction l as [|p l IH]; intros s Hs; [done|].
  simpl in Hs. simpl for_each. unfold bind at 1.
  rewrite (create_document_skip c p s _ Hs).
  rewrite IH; [done|]. by rewrite db_faults_after_create, Hs.
Qed.

Lemma run_try_except_Raise {A} (m : M A) (s s' : Database) (text : string) :
  m s = (Raise (Exception text), s') →
  run (try_except m (λ e, raise (HTTPException 500 (exn_str e)))) s =
  (Raise (HTTPException 500 text), Some s').
Proof. intros H. unfold run, try_except. by rewrite H. Qed.

Lemma seed_products_fault (s : Database) (j : nat) text rest :
  j ≤ 8 → collection "product" s = [] →
  db_faults s = None :: replicate j None ++ Some text :: rest →
  ∃ s' : Database,
    seed_products (Some s) = (Raise (HTTPException 500 text), Some s') ∧
    collection "product" s' = stored_from (db_next_oid s) (take j sample_products).
Proof.
  intros Hj He Hs.
  set (s0 := noted (CountDocuments "product") s).
  assert (db_faults s0 = replicate j None ++ Some text :: rest) as Hs0.
  { unfold s0. by rewrite db_faults_noted, Hs. }
  assert (∀ l, collection "product" (fold_left (after_create "product") l s0) =
               stored_from (db_next_oid s) l) as Hc.
  { intros l. rewrite (proj2 (fold_left_after_create _ _ _)).
    unfold s0. by rewrite collection_noted, He. }
  unfold seed_products, require_db.
  destruct (decide (j < 8)) as [Hlt|Hge].
  - exists (noted (InsertOne "product")
              (fold_left (after_create "product") (take j sample_products) s0)).
    split; [|by rewrite collection_noted, Hc].
    apply run_try_except_Raise.
    erewrite bind_Return by (by apply (count_documents_skip _ s _ Hs)).
    rewrite He. change (Z.of_nat (length []) =? 0)%Z with true. cbv iota.
    apply bind_Raise, bind_Raise.
    by apply (for_each_create_document_fault _ _ j s0 text rest).
  - assert (j = 8) as -> by lia.
    exists (noted (CountDocuments "product")
              (fold_left (after_create "product") sample_products s0)).
    split; [|by rewrite collection_noted, Hc].
    apply run_try_except_Raise.
    erewrite bind_Return by (by apply (count_documents_skip _ s _ Hs)).
    rewrite He. change (Z.of_nat (length []) =? 0)%Z with true. cbv iota.
    erewrite bind_Return.
    2:{ erewrite bind_Return
          by (by apply (for_each_create_document_skip "product" sample_products s0
                          (Some text :: rest))).
        done. }
    apply bind_Raise.
    unfold count_documents. apply (send_out_of_order _ _ _ text rest).
    rewrite (proj1 (fold_left_after_create _ _ _)), Hs0.
    by rewrite (drop_app_length (replicate 8 None)).
Qed.

(** X3.  [create_product], [list_categories] and [seed_products] run
    the store under [try ... except Exception as e] and raise
    [HTTPException(status_code=500, detail=str(e))].  When the store
    raises at the first command of a request, each of the three routes
    answers 500 with the whole text of the exception as detail, and the
    store holds the documents it held.  [seed_products] sends up to ten
    commands: when the collection is empty and the store raises after
    having taken the count and [j] insertions, [j] from 0 to 8, the
    route answers 500 with the text as detail, and the first [j] sample
    products stay in the collection; when the collection is not empty
    and the store raises at the second count, the route answers 500 and
    the collection is as it was. *)
Theorem store_errors_become_500 :
  ∀ (s : Database) (text : string) rest,
    (db_faults s = Some text :: rest →
     (∀ product,
        POST_api_products product (Some s) =
        (ErrorResponse 500 text, Some (noted (InsertOne "product") s))) ∧
     GET_api_categories (Some s) =
       (ErrorResponse 500 text, Some (noted (Distinct "product" "category") s)) ∧
     POST_api_seed (Some s) =
       (ErrorResponse 500 text, Some (noted (CountDocuments "product") s)) ∧
     (∀ c, db_colls (noted c s) = db_colls s)) ∧
    (∀ j : nat,
       j ≤ 8 → collection "product" s = [] →
       db_faults s = None :: replicate j None ++ Some text :: rest →
       ∃ s' : Database,
         POST_api_seed (Some s) = (ErrorResponse 500 text, Some s') ∧
         collection "product" s' = stored_from (db_next_oid s) (take j sample_products) ∧
         length (collection "product" s') = j) ∧
    (collection "product" s ≠ [] →
     db_faults s = None :: Some text :: rest →
     ∃ s' : Database,
       POST_api_seed (Some s) = (ErrorResponse 500 text, Some s') ∧
       db_colls s' = db_colls s).
Proof.
  intros s text rest. split_and!.
  - intros Hs. split_and!.
    + intros product.
      unfold POST_api_products, route, create_product, require_db, run, try_except.
      unfold bind. by rewrite (create_document_out_of_order _ _ s text rest).
    + unfold GET_api_categories, route_with_model, list_categories, require_db, run,
        try_except.
      unfold bind, distinct.
      by rewrite (send_out_of_order _ _ s text rest).
    + unfold POST_api_seed, route, seed_products, require_db, run, try_except.
      unfold bind at 1. unfold count_documents.
      by rewrite (send_out_of_order _ _ s text rest).
    + done.
  - intros j Hj He Hs.
    destruct (seed_products_fault s j text rest Hj He Hs) as (s' & H & Hc).
    exists s'. split_and!.
    + unfold POST_api_seed, route. by rewrite H.
    + done.
    + rewrite Hc, stored_from_length, length_take. simpl. lia.
  - intros He Hs.
    exists (noted (CountDocuments "product") (noted (CountDocuments "product") s)).
    split; [|done].
    assert (seed_products (Some s) =
            (Raise (HTTPException 500 text),
             Some (noted (CountDocuments "product")
                     (noted (CountDocuments "product") s)))) as H;
      [|unfold POST_api_seed, route; by rewrite H].
    unfold seed_products, require_db.
    apply run_try_except_Raise.
    erewrite bind_Return by (by apply (count_documents_skip _ s _ Hs)).
    assert ((Z.of_nat (length (collection "product" s)) =? 0)%Z = false) as ->.
    { apply Z.eqb_neq. destruct (collection "product" s); [done|]. simpl. lia. }
    erewrite bind_Return by done.
    apply bind_Raise.
    unfold count_documents. apply (send_out_of_order _ _ _ text rest).
    by rewrite db_faults_noted, Hs.
Qed.

(** The three routes on the store that cannot be reached: the detail is
    the text of 98 characters, whole; and a seeding that fails at the
    third sample, which leaves two. *)
Lemma store_errors_become_500_witness :
  POST_api_products pepperoni (Some unreachable_shop) =
    (ErrorResponse 500 refused, Some (noted (InsertOne "product") unreachable_shop)) ∧
  GET_api_categories (Some unreachable_shop) =
    (ErrorResponse 500 refused,
     Some (noted (Distinct "product" "category") unreachable_shop)) ∧
  POST_api_seed (Some unreachable_shop) =
    (ErrorResponse 500 refused, Some (noted (CountDocuments "product") unreachable_shop)) ∧
  ∃ s' : Database,
    POST_api_seed (Some failing_shop) = (ErrorResponse 500 refused, Some s') ∧
    collection "product" s' = stored_from 0 (take 2 sample_products) ∧
    length (collection "product" s') = 2.
Proof.
  destruct (store_errors_become_500 unreachable_shop refused []) as (H & _ & _).
  destruct (H eq_refl) as (H1 & H2 & H3 & _).
  destruct (store_errors_become_500 failing_shop refused []) as (_ & H' & _).
  split_and!; [exact (H1 pepperoni)|exact H2|exact H3|].
  exact (H' 2 ltac:(lia) eq_refl eq_refl).
Defined.

(** ** What the diagnostic route reports *)

Lemma getenv_set_spec (environ : gmap string string) (k : string) :
  getenv_set environ k = true ↔ ∃ v, environ !! k = Some v ∧ v ≠ "".
Proof.
  unfold getenv_set. rewrite bool_decide_eq_true. split.
  - intros [v Hv]. apply given_Some in Hv as [? ?]. eauto.
  - intros (v & -> & Hv). rewrite given_text by done. eauto.
Qed.

Lemma test_database_report environ db :
  ∃ base : gmap string jval,
    test_database environ db =
      (Return (environment_entries environ base), noted ListCollectionNames <$> db) ∧
    base !! "backend" = Some (JStr "✅ Running") ∧
    match db with
    | None =>
        base !! "connection_status" = Some (JStr "Not Connected") ∧
        base !! "database" = Some (JStr "⚠️  Available but not initialized") ∧
        base !! "collections" = Some (JList [])
    | Some s =>
        base !! "connection_status" = Some (JStr "Connected") ∧
        match db_faults s with
        | Some text :: _ =>
            base !! "database" =
              Some (JStr ("⚠️  Connected but Error: " +:+ take_chars 50 text)) ∧
            base !! "collections" = Some (JList [])
        | _ =>
            base !! "database" = Some (JStr "✅ Connected & Working") ∧
            base !! "collections" =
              Some (JList (take 10 (map_to_list (db_colls s)).*1))
        end
    end.
Proof.
  destruct db as [s|]; [destruct (db_faults s) as [|[text|] rest] eqn:Hs|].
  - eexists. split; [apply test_database_in_order; by rewrite Hs|].
    unfold connected_entries, initial_response. split_and!; by simplify_map_eq.
  - eexists. split; [by eapply test_database_out_of_order|].
    unfold connected_entries, initial_response. split_and!; by simplify_map_eq.
  - eexists. split; [apply test_database_in_order; by rewrite Hs|].
    unfold connected_entries, initial_response. split_and!; by simplify_map_eq.
  - eexists. split; [by apply test_database_no_handle|].
    unfold initial_response. split_and!; by simplify_map_eq.
Qed.

Lemma environment_entries_lookup environ (base : gmap string jval) :
  environment_entries environ base !! "database_url" =
    Some (JStr (if getenv_set environ "DATABASE_URL" then "✅ Set" else "❌ Not Set")) ∧
  environment_entries environ base !! "database_name" =
    Some (JStr (if getenv_set environ "DATABASE_NAME" then "✅ Set" else "❌ Not Set")) ∧
  ∀ k : string, k ≠ "database_url" → k ≠ "database_name" →
    environment_entries environ base !! k = base !! k.
Proof.
  unfold environment_entries. split_and!; [by simplify_map_eq..|].
  intros k H1 H2. by rewrite !lookup_insert_ne.
Qed.

(** X4.  The entries [database_url] and [database_name] are set last,
    from [os.getenv] alone: in every answer of [GET /test] each is "Set"
    or "Not Set", and is "Set" exactly when the variable [DATABASE_URL],
    respectively [DATABASE_NAME], is set to a text that is not empty;
    what the handler wrote there before (["Configured"], the name of the
    database) is never in the answer, whatever the handle and the
    store. *)
Theorem test_reports_the_environment :
  ∀ (environ : gmap string string) (db : option Database),
    ∃ r : gmap string jval,
      fst (GET_test environ db) = Response 200 r ∧
      (r !! "database_url" = Some (JStr "✅ Set") ∨
       r !! "database_url" = Some (JStr "❌ Not Set")) ∧
      (r !! "database_url" = Some (JStr "✅ Set") ↔
       ∃ v, environ !! "DATABASE_URL" = Some v ∧ v ≠ "") ∧
      (r !! "database_name" = Some (JStr "✅ Set") ∨
       r !! "database_name" = Some (JStr "❌ Not Set")) ∧
      (r !! "database_name" = Some (JStr "✅ Set") ↔
       ∃ v, environ !! "DATABASE_NAME" = Some v ∧ v ≠ "").
Proof.
  intros environ db.
  destruct (test_database_report environ db) as (base & H & _).
  destruct (environment_entries_lookup environ base) as (Hu & Hn & _).
  exists (environment_entries environ base). split.
  { unfold GET_test, route. by rewrite H. }
  rewrite Hu, Hn, <- !getenv_set_spec.
  destruct (getenv_set environ "DATABASE_URL"), (getenv_set environ "DATABASE_NAME");
    split_and!; try (by left); try (by right);
    (split; [intros H'|intros H']; first [done|discriminate H'|by injection H']).
Qed.

(** An environment in which [DATABASE_URL] is set and [DATABASE_NAME] is
    set to the empty text. *)
Lemma test_reports_the_environment_witness :
  ∃ r : gmap string jval,
    fst (GET_test {["DATABASE_URL" := "mongodb://localhost:27017"; "DATABASE_NAME" := ""]}
           (Some pizza_shop)) = Response 200 r ∧
    r !! "database_url" = Some (JStr "✅ Set") ∧
    r !! "database_name" ≠ Some (JStr "✅ Set").
Proof.
  destruct (test_reports_the_environment
              {["DATABASE_URL" := "mongodb://localhost:27017"; "DATABASE_NAME" := ""]}
              (Some pizza_shop)) as (r & H & _ & Hu & _ & Hn).
  exists r. split_and!; [exact H| |].
  - apply Hu. eexists. split; [apply lookup_insert_eq|done].
  - intros Hr. apply Hn in Hr as (v & Hv & Hne).
    assert (v = "") as ->; [|done].
    rewrite lookup_insert_ne, lookup_singleton_eq in Hv by done.
    by injection Hv.
Defined.

(** X5.  What [GET /test] reports of the connection.  Without handle:
    "Not Connected", "Available but not initialized", no collection.
    With a handle, [connection_status] is "Connected" whether or not the
    store answers; when it answers, [database] is "Connected & Working"
    and [collections] holds the first ten names the store lists (all of
    them when there are at most ten); when it raises, [database] is
    "Connected but Error: " and the first 50 characters of the text
    (characters, not bytes: the whole text when it has no more than
    50), and [collections] stays empty.  The first value of
    [database], "Not Available", is in no answer. *)
Theorem test_reports_the_connection :
  ∀ (environ : gmap string string) (db : option Database),
    ∃ r : gmap string jval,
      fst (GET_test environ db) = Response 200 r ∧
      r !! "backend" = Some (JStr "✅ Running") ∧
      r !! "database" ≠ Some (JStr "❌ Not Available") ∧
      match db with
      | None =>
          r !! "connection_status" = Some (JStr "Not Connected") ∧
          r !! "database" = Some (JStr "⚠️  Available but not initialized") ∧
          r !! "collections" = Some (JList [])
      | Some s =>
          r !! "connection_status" = Some (JStr "Connected") ∧
          match db_faults s with
          | Some text :: _ =>
              r !! "database" =
                Some (JStr ("⚠️  Connected but Error: " +:+ take_chars 50 text)) ∧
              count_chars (take_chars 50 text) = 50 `min` count_chars text ∧
              (count_chars text ≤ 50 → take_chars 50 text = text) ∧
              r !! "collections" = Some (JList [])
          | _ =>
              r !! "database" = Some (JStr "✅ Connected & Working") ∧
              r !! "collections" =
                Some (JList (take 10 (map_to_list (db_colls s)).*1)) ∧
              (size (db_colls s) ≤ 10 →
               r !! "collections" = Some (JList (map_to_list (db_colls s)).*1))
          end
      end.
Proof.
  intros environ db.
  destruct (test_database_report environ db) as (base & H & Hb & Hcase).
  destruct (environment_entries_lookup environ base) as (_ & _ & Hk).
  exists (environment_entries environ base). split.
  { unfold GET_test, route. by rewrite H. }
  rewrite !Hk by done. split; [done|].
  assert (∀ s : Database,
            base !! "database" = Some (JStr "✅ Connected & Working") ∧
            base !! "collections" =
              Some (JList (take 10 (map_to_list (db_colls s)).*1)) →
            base !! "database" = Some (JStr "✅ Connected & Working") ∧
            base !! "collections" =
              Some (JList (take 10 (map_to_list (db_colls s)).*1)) ∧
            (size (db_colls s) ≤ 10 →
             base !! "collections" = Some (JList (map_to_list (db_colls s)).*1))) as Hw.
  { intros s [Hd Hc]. split_and!; [done..|].
    intros Hsize. rewrite Hc, take_ge; [done|].
    by rewrite length_fmap, length_map_to_list. }
  destruct db as [s|]; [destruct (db_faults s) as [|[text|] rest]|].
  - destruct Hcase as (? & Hd & Hc). rewrite Hd. split_and!; try done; by apply Hw.
  - destruct Hcase as (? & Hd & ?). rewrite Hd.
    split_and!; try done.
    + apply take_chars_count.
    + apply take_chars_all.
  - destruct Hcase as (? & Hd & Hc). rewrite Hd. split_and!; try done; by apply Hw.
  - destruct Hcase as (? & Hd & ?). rewrite Hd. split_and!; done.
Qed.

(** The report on the store [pizza_shop], which has one collection. *)
Lemma test_reports_the_connection_witness :
  ∃ r : gmap string jval,
    fst (GET_test ∅ (Some pizza_shop)) = Response 200 r ∧
    r !! "connection_status" = Some (JStr "Connected") ∧
    r !! "database" = Some (JStr "✅ Connected & Working") ∧
    r !! "collections" = Some (JList ["product"]).
Proof.
  destruct (test_reports_the_connection ∅ (Some pizza_shop))
    as (r & H & _ & _ & Hc & Hd & _ & Hl).
  exists r. split_and!; [exact H|exact Hc|exact Hd|].
  rewrite Hl.
  - unfold pizza_shop. simpl db_colls. by rewrite map_to_list_singleton.
  - unfold pizza_shop. simpl db_colls. rewrite map_size_singleton. lia.
Defined.

(** ** The records of an answer *)



Lemma dom_stringify_if_present (k : string) (d : document) :
  dom (stringify_if_present k d) = dom d.
Proof.
  unfold stringify_if_present. destruct (d !! k) as [v|] eqn:Hk; [|done].
  rewrite dom_insert_L. apply elem_of_dom_2 in Hk. set_solver.
Qed.





(** X7.  The fields of a normalized record are those of the stored
    record without [_id], and [id]: normalization adds no other field
    and drops no other.  A record stored without [_id] gets the empty
    text as [id], and a field [id] the stored record had is replaced. *)
Theorem normalization_fields :
  ∀ d : document,
    dom (normalize d) = {["id"]} ∪ (dom d ∖ {["_id"]}) ∧
    (d !! "_id" = None → normalize d !! "id" = Some (VStr "")) ∧
    (∀ v oid, d !! "id" = Some v → d !! "_id" = Some (VOid oid) →
              normalize d !! "id" = Some (VStr (oid_str oid))).
Proof.
  intros d. split_and!.
  - unfold normalize. rewrite !dom_stringify_if_present, dom_insert_L, dom_delete_L.
    done.
  - intros H. by rewrite normalize_lookup_id, H.
  - intros v oid _ H. by rewrite normalize_lookup_id, H.
Qed.

(** A record without identifier, and a record that has both an
    identifier and a field [id]. *)
Lemma normalization_fields_witness :
  normalize {["title" := VStr "Tap Water"]} !! "id" = Some (VStr "") ∧
  normalize {["_id" := VOid 255; "id" := VInt 7]} !! "id" =
    Some (VStr "0000000000000000000000ff").
Proof.
  split.
  - apply (proj1 (proj2 (normalization_fields {["title" := VStr "Tap Water"]}))).
    apply lookup_singleton_ne. done.
  - apply (proj2 (proj2 (normalization_fields {["_id" := VOid 255; "id" := VInt 7]}))
             (VInt 7) 255%N).
    + rewrite lookup_insert_ne by done. apply lookup_singleton_eq.
    + apply lookup_insert_eq.
Defined.

(** ** What the reading routes leave *)

(** X8.  The three routes that read, [GET /api/products] (with a
    [limit] the framework accepts), [GET /api/categories] and
    [GET /test], send one command each to the store behind the handle,
    whatever they find and however they end, be it with a list, with an
    exception of the store or otherwise; the store is then as it was but
    for that command in its journal: same collections, same documents,
    same next identifier. *)
Theorem reading_routes_send_one_command :
  ∀ s : Database,
    (∀ category search limit n,
       Query_limit limit = Some n →
       snd (GET_api_products category search limit (Some s)) =
       Some (noted (Find "product") s)) ∧
    snd (GET_api_categories (Some s)) =
      Some (noted (Distinct "product" "category") s) ∧
    (∀ environ,
       snd (GET_test environ (Some s)) = Some (noted ListCollectionNames s)) ∧
    (∀ c, db_colls (noted c s) = db_colls s ∧
          db_next_oid (noted c s) = db_next_oid s ∧
          db_journal (noted c s) = db_journal s ++ [c]).
Proof.
  intros s. split_and!.
  - intros category search limit n Hq.
    rewrite (GET_api_products_unfold _ _ _ n) by done. cbn [snd].
    rewrite list_products_unfold. unfold get_documents, find, send.
    change (db_regex (noted (Find "product") s)) with (db_regex s).
    destruct (db_faults s) as [|[text|] rest];
      by destruct (refused_filter (db_regex s) (filter_dict category search)).
  - unfold GET_api_categories, route_with_model, list_categories, require_db, run,
      try_except.
    unfold bind, distinct, send. destruct (db_faults s) as [|[text|] rest];
      [|done|]; unfold sorted; by destruct (py_sorted _).
  - intros environ.
    destruct (test_database_report environ (Some s)) as (base & H & _).
    unfold GET_test, route. by rewrite H.
  - done.
Qed.

(** The three routes on the store [pizza_shop]. *)
Lemma reading_routes_send_one_command_witness :
  snd (GET_api_products (Some "Pizza") (Some "a*") None (Some pizza_shop)) =
    Some (noted (Find "product") pizza_shop) ∧
  snd (GET_api_categories (Some pizza_shop)) =
    Some (noted (Distinct "product" "category") pizza_shop).
Proof.
  destruct (reading_routes_send_one_command pizza_shop) as (H1 & H2 & _).
  split; [exact (H1 (Some "Pizza") (Some "a*") None 100%Z eq_refl)|exact H2].
Defined.

(** ** Seeding, listing and creating *)

Lemma fields_stored_from (oid : N) (l : list Product) :
  Forall2 (λ (r : document) (p : Product),
             (∃ i : string, r !! "id" = Some (VStr i) ∧ i ≠ "") ∧
             r !! "title" = Some (VStr (title p)) ∧
             r !! "description" = Some (optional_text (description p)) ∧
             r !! "price" = Some (VFloat (price p)) ∧
             r !! "category" = Some (optional_text (category p)) ∧
             r !! "in_stock" = Some (VBool (in_stock p)))
          (ProductResponse_body <$> (normalize <$> stored_from oid l)) l.
Proof.
  revert oid. induction l as [|p l IH]; intros oid; [constructor|].
  simpl stored_from. rewrite !fmap_cons. constructor; [|apply IH].
  destruct (body_stored_fields oid p) as (Hi & ? & ? & ? & ? & ?).
  split_and!; try done. exists (oid_str oid). split; [done|apply oid_str_not_empty].
Qed.

Lemma conforming_stored_from (oid : N) (l : list Product) :
  Forall valid_product l → Forall conforming (stored_from oid l).
Proof.
  intros Hl. revert oid. induction Hl as [|p l Hp _ IH]; intros oid; simpl.
  - apply List.Forall_nil.
  - apply List.Forall_cons; [by apply (conforming_stored oid p)|apply IH].
Qed.

Lemma valid_sample_products : Forall valid_product sample_products.
Proof.
  unfold sample_products.
  repeat (apply List.Forall_cons; [split; [done|reflexivity]|]).
  apply List.Forall_nil.
Qed.

Lemma categories_stored_from (oid : N) (l : list Product) :
  omap (λ d : document, d !! "category") (stored_from oid l) =
  (λ p, optional_text (category p)) <$> l.
Proof.
  revert oid. induction l as [|p l IH]; intros oid; [done|].
  simpl stored_from. rewrite fmap_cons. simpl omap.
  assert ((<["_id" := VOid oid]> (to_document p) : document) !! "category" =
          Some (optional_text (category p))) as ->.
  { unfold to_document. by simplify_map_eq. }
  by rewrite IH.
Qed.

(** X9.  Seeding, then reading.  After [POST /api/seed] on a store in
    order whose product collection is empty, [GET /api/products]
    without parameter answers with eight records, one for each sample
    product and in the order of [sample_products], each with the title,
    description, price, category and stock flag of its sample and a text
    that is not empty as [id]; and [GET /api/categories] answers with
    the six categories of the samples, in ascending order. *)
Theorem seeded_products_are_listed :
  ∀ s : Database,
    db_faults s = [] → collection "product" s = [] →
    ∃ (s' : Database) (l : list document),
      snd (POST_api_seed (Some s)) = Some s' ∧
      fst (GET_api_products None None None (Some s')) = Response 200 l ∧
      Forall2 (λ (r : document) (p : Product),
                 (∃ i : string, r !! "id" = Some (VStr i) ∧ i ≠ "") ∧
                 r !! "title" = Some (VStr (title p)) ∧
                 r !! "description" = Some (optional_text (description p)) ∧
                 r !! "price" = Some (VFloat (price p)) ∧
                 r !! "category" = Some (optional_text (category p)) ∧
                 r !! "in_stock" = Some (VBool (in_stock p)))
              l sample_products ∧
      fst (GET_api_categories (Some s')) =
        Response 200 (VStr <$> ["Asian"; "Burgers"; "Desserts"; "Pizza"; "Salads"; "Sushi"]).
Proof.
  intros s Hs He.
  set (s' := noted (CountDocuments "product")
               (fold_left (after_create "product") sample_products
                  (noted (CountDocuments "product") s))).
  assert (db_faults s' = []) as Hs'.
  { unfold s'.
    by rewrite db_faults_noted, (proj1 (fold_left_after_create _ _ _)),
      db_faults_noted, Hs. }
  assert (collection "product" s' = stored_from (db_next_oid s) sample_products) as Hc.
  { unfold s'. rewrite collection_noted, (proj2 (fold_left_after_create _ _ _)).
    by rewrite collection_noted, He. }
  assert (take (Z.to_nat 100)
            (List.filter (meets (db_regex s') (filter_dict None None))
               (collection "product" s')) =
          stored_from (db_next_oid s) sample_products) as Hl.
  { change (filter_dict None None) with (@nil cond).
    rewrite filter_meets_nil, Hc, take_ge; [done|].
    rewrite stored_from_length. simpl. lia. }
  exists s', (ProductResponse_body <$>
                (normalize <$> stored_from (db_next_oid s) sample_products)).
  split_and!.
  - unfold POST_api_seed, route. by rewrite seed_products_empty.
  - rewrite (GET_api_products_in_order _ _ _ 100%Z); [|done|done|done|].
    + cbn [fst]. by rewrite Hl.
    + rewrite Hl. apply conforming_stored_from, valid_sample_products.
  - apply fields_stored_from.
  - unfold GET_api_categories, route_with_model.
    rewrite list_categories_in_order by done.
    rewrite Hc, categories_stored_from.
    by_evaluation.
Qed.

(** Seeding the empty store. *)
Lemma seeded_products_are_listed_witness :
  ∃ (s' : Database) (l : list document),
    snd (POST_api_seed (Some empty_shop)) = Some s' ∧
    fst (GET_api_products None None None (Some s')) = Response 200 l ∧
    length l = 8 ∧
    fst (GET_api_categories (Some s')) =
      Response 200 (VStr <$> ["Asian"; "Burgers"; "Desserts"; "Pizza"; "Salads"; "Sushi"]).
Proof.
  destruct (seeded_products_are_listed empty_shop eq_refl eq_refl)
    as (s' & l & H1 & H2 & H3 & H4).
  exists s', l. split_and!; [exact H1|exact H2| |exact H4].
  by rewrite (Forall2_length _ _ _ H3).
Defined.

(** X10.  Creating, then seeding.  After [POST /api/products] has
    created a product on a store in order, [POST /api/seed] finds the
    collection not empty: it answers with status 200 and a dictionary
    whose entries are [inserted], 0, and [total], one more than the
    number of products there were before the creation; and the
    collection holds what it held then and the product created, no
    sample. *)
Theorem seeding_after_a_creation_inserts_nothing :
  ∀ (p : Product) (s : Database),
    db_faults s = [] →
    ∃ (r : document) (s1 s2 : Database),
      snd (POST_api_products p (Some s)) = Some s1 ∧
      POST_api_seed (Some s1) = (Response 200 r, Some s2) ∧
      r !! "inserted" = Some (VInt 0) ∧
      r !! "total" = Some (VInt (Z.of_nat (length (collection "product" s)) + 1)) ∧
      dom r = {["inserted"; "total"]} ∧
      collection "product" s2 =
        collection "product" s ++ [stored (db_next_oid s) p].
Proof.
  intros p s Hs.
  pose proof (collection_after_create "product" s p) as Hc.
  destruct (seed_report_lookup 0 (Z.of_nat (length (collection "product" s)) + 1))
    as (? & ? & ?).
  exists (seed_report 0 (Z.of_nat (length (collection "product" s)) + 1)),
    (after_create "product" s p),
    (noted (CountDocuments "product")
       (noted (CountDocuments "product") (after_create "product" s p))).
  split_and!; try done.
  - unfold POST_api_products, route. by rewrite create_product_in_order.
  - unfold POST_api_seed, route. rewrite seed_products_not_empty.
    + rewrite Hc, length_app. simpl. do 3 f_equal. lia.
    + by apply after_create_in_order.
    + rewrite Hc. by destruct (collection "product" s).
Qed.

(** The Pepperoni product created on the empty store, then a seeding. *)
Lemma seeding_after_a_creation_inserts_nothing_witness :
  ∃ (r : document) (s1 s2 : Database),
    snd (POST_api_products pepperoni (Some empty_shop)) = Some s1 ∧
    POST_api_seed (Some s1) = (Response 200 r, Some s2) ∧
    r !! "inserted" = Some (VInt 0) ∧
    r !! "total" = Some (VInt 1) ∧
    dom r = {["inserted"; "total"]} ∧
    collection "product" s2 = [stored 0 pepperoni].
Proof.
  exact (seeding_after_a_creation_inserts_nothing pepperoni empty_shop eq_refl).
Defined.
